(** * blink-control-hub: the blink-detection hook, verified

    A shallow embedding of [src/hooks/useBlinkDetection.ts] (the EAR
    calculator, the per-frame blink debouncer and the start / stop /
    initialize life cycle of the hook), together with the action dispatcher
    that the design document describes.

    JavaScript numbers are IEEE-754 binary64 values.  The numeric code is
    written once, over the interface [JsNumber], and used at two instances:
    - [float], Rocq's primitive binary64 floats: what the program computes;
      every concrete run in this file is evaluated at this instance;
    - [R], the real numbers: the same formulas without rounding, for the
      algebraic laws that only hold up to rounding on the machine. *)

From Stdlib Require Import ZArith Reals Lra Lia Floats String.
From stdpp Require Import base option list gmap.

Set Warnings "-inexact-float".

(** ** Numbers *)

(** The operations of JavaScript's [number] that the hook uses. *)
Class JsNumber (num : Type) := {
  nadd : num -> num -> num;          (* a + b *)
  nsub : num -> num -> num;          (* a - b *)
  nmul : num -> num -> num;          (* a * b *)
  ndiv : num -> num -> num;          (* a / b, total: never raises *)
  nsqrt : num -> num;                (* Math.sqrt(a) *)
  nltb : num -> num -> bool;         (* a < b *)
  neqb : num -> num -> bool;         (* a === b *)
  n_zero : num;                      (* 0 *)
  n_two : num;                       (* 2 *)
  n_minus_one : num;                 (* -1 *)
  n_epsilon : num;                   (* 0.0001 *)
  n_default_threshold : num          (* 0.2 *)
}.

(** [Math.pow(a, 2)]: fdlibm's [pow], on which the common engines build,
    returns the product [a * a] for the exponent 2. *)
Definition npow2 {num : Type} `{JsNumber num} (a : num) : num := nmul a a.

(** [a !== b] *)
Definition nneqb {num : Type} `{JsNumber num} (a b : num) : bool := negb (neqb a b).

(** binary64: the arithmetic the program runs on. *)
#[export] Instance float_JsNumber : JsNumber float := {|
  nadd := PrimFloat.add;
  nsub := PrimFloat.sub;
  nmul := PrimFloat.mul;
  ndiv := PrimFloat.div;
  nsqrt := PrimFloat.sqrt;
  nltb := PrimFloat.ltb;
  neqb := PrimFloat.eqb;
  n_zero := 0%float;
  n_two := 2%float;
  n_minus_one := (-1)%float;
  n_epsilon := 0.0001%float;
  n_default_threshold := 0.2%float
|}.

(** Exact real arithmetic: the same operations without rounding. *)
#[export] Instance R_JsNumber : JsNumber R := {|
  nadd := Rplus;
  nsub := Rminus;
  nmul := Rmult;
  ndiv := Rdiv;
  nsqrt := R_sqrt.sqrt;
  nltb := fun a b => if Rlt_dec a b then true else false;
  neqb := fun a b => if Req_dec_T a b then true else false;
  n_zero := 0%R;
  n_two := 2%R;
  n_minus_one := (-1)%R;
  n_epsilon := (1 / 10000)%R;
  n_default_threshold := (2 / 10)%R
|}.

(** ** Landmarks and the eye aspect ratio *)

(** [{ x: number; y: number; z: number }] *)
Record LandmarkPoint (num : Type) := mkPoint { x : num; y : num; z : num }.
Arguments mkPoint {num} _ _ _.
Arguments x {num} _.
Arguments y {num} _.
Arguments z {num} _.

(** Eye landmark indices for MediaPipe Face Landmarker. *)
Definition LEFT_EYE_TOP : nat := 159.
Definition LEFT_EYE_BOTTOM : nat := 145.
Definition LEFT_EYE_LEFT : nat := 33.
Definition LEFT_EYE_RIGHT : nat := 133.
Definition RIGHT_EYE_TOP : nat := 386.
Definition RIGHT_EYE_BOTTOM : nat := 374.
Definition RIGHT_EYE_LEFT : nat := 362.
Definition RIGHT_EYE_RIGHT : nat := 263.

Section EAR.
Context {num : Type} `{JsNumber num}.

(** [calculateEAR(landmarks, topIdx, bottomIdx, leftIdx, rightIdx)].

    [landmarks[i]] is [undefined] when [i] is not an index of the array,
    and reading [.x] of [undefined] throws a [TypeError]: the result is
    [None] exactly when the call throws.  (An index that is negative or
    not an integer is no index of the array either, so [nat] indices with
    an out-of-range case cover what the function can do.) *)
Definition calculateEAR (landmarks : list (LandmarkPoint num))
    (topIdx bottomIdx leftIdx rightIdx : nat) : option num :=
  top ← landmarks !! topIdx;
  bottom ← landmarks !! bottomIdx;
  left ← landmarks !! leftIdx;
  right ← landmarks !! rightIdx;
  let verticalDist :=
    nsqrt (nadd (npow2 (nsub (x top) (x bottom)))
                (npow2 (nsub (y top) (y bottom)))) in
  let horizontalDist :=
    nsqrt (nadd (npow2 (nsub (x left) (x right)))
                (npow2 (nsub (y left) (y right)))) in
  Some (ndiv verticalDist (nadd horizontalDist n_epsilon)).

(** The frame shifted by one offset vector: every landmark moves by
    [(dx, dy, dz)]. *)
Definition translate (dx dy dz : num) (landmarks : list (LandmarkPoint num))
    : list (LandmarkPoint num) :=
  (fun p => mkPoint (nadd (x p) dx) (nadd (y p) dy) (nadd (z p) dz))
    <$> landmarks.

(** What the design document calls the distance between two landmarks:
    the Euclidean distance of their image-plane coordinates. *)
Definition euclidean (p q : LandmarkPoint num) : num :=
  nsqrt (nadd (nmul (nsub (x p) (x q)) (nsub (x p) (x q)))
              (nmul (nsub (y p) (y q)) (nsub (y p) (y q)))).

(** EAR as the design document words it:
    verticalDistance / (horizontalDistance + ε). *)
Definition EAR_spec (top bottom left right : LandmarkPoint num) : num :=
  ndiv (euclidean top bottom) (nadd (euclidean left right) n_epsilon).

End EAR.

(** ** The hook's state *)

(** The inference engine ([FaceLandmarker]) and the canvas helpers are
    external objects; the hook only holds references to them. *)
Inductive FaceLandmarker := theFaceLandmarker.
Inductive DrawingUtils := theDrawingUtils.
Inductive CanvasRenderingContext2D := theContext2D.
Inductive HTMLVideoElement := theVideo.

(** A canvas, as far as [startDetection] looks at it: what
    [canvas.getContext("2d")] returns ([None] for [null]). *)
Record HTMLCanvasElement := mkCanvas {
  getContext2d : option CanvasRenderingContext2D
}.

(** [UseBlinkDetectionOptions]; [onBlink] is optional: [false] when the
    caller passed no handler.  [consecutiveFrames] is a count of frames, an
    integer in the design document. *)
Record UseBlinkDetectionOptions (num : Type) := mkOptions {
  onBlink : bool;
  earThreshold : num;
  consecutiveFrames : Z
}.
Arguments mkOptions {num} _ _ _.
Arguments onBlink {num} _.
Arguments earThreshold {num} _.
Arguments consecutiveFrames {num} _.

(** What the hook's callbacks do that the caller can observe. *)
Inductive Event :=
  | Blink                (* one call of [onBlink] *)
  | UncaughtTypeError.   (* an exception left the frame callback *)

(** The [useState] cells and the [useRef] cells of one hook instance.
    An animation-frame handle is an integer greater than zero, so a handle
    that is not [null] is always truthy.  [blinkCounterRef] counts frames:
    a number that only ever is 0 or a successor, exact in binary64 for
    every count a session can reach. *)
Record Hook := mkHook {
  isInitialized : bool;
  isRunning : bool;
  error : option string;
  faceLandmarkerRef : option FaceLandmarker;
  animationFrameRef : option positive;
  blinkCounterRef : Z;
  wasBlinkingRef : bool;
  drawingUtilsRef : option DrawingUtils
}.

Definition initialHook : Hook :=
  mkHook false false None None None 0 false None.

Definition set_isInitialized (b : bool) (s : Hook) : Hook :=
  mkHook b (isRunning s) (error s) (faceLandmarkerRef s) (animationFrameRef s)
         (blinkCounterRef s) (wasBlinkingRef s) (drawingUtilsRef s).
Definition set_isRunning (b : bool) (s : Hook) : Hook :=
  mkHook (isInitialized s) b (error s) (faceLandmarkerRef s) (animationFrameRef s)
         (blinkCounterRef s) (wasBlinkingRef s) (drawingUtilsRef s).
Definition set_error (e : option string) (s : Hook) : Hook :=
  mkHook (isInitialized s) (isRunning s) e (faceLandmarkerRef s) (animationFrameRef s)
         (blinkCounterRef s) (wasBlinkingRef s) (drawingUtilsRef s).
Definition set_faceLandmarkerRef (r : option FaceLandmarker) (s : Hook) : Hook :=
  mkHook (isInitialized s) (isRunning s) (error s) r (animationFrameRef s)
         (blinkCounterRef s) (wasBlinkingRef s) (drawingUtilsRef s).
Definition set_animationFrameRef (r : option positive) (s : Hook) : Hook :=
  mkHook (isInitialized s) (isRunning s) (error s) (faceLandmarkerRef s) r
         (blinkCounterRef s) (wasBlinkingRef s) (drawingUtilsRef s).
Definition set_blinkCounterRef (n : Z) (s : Hook) : Hook :=
  mkHook (isInitialized s) (isRunning s) (error s) (faceLandmarkerRef s)
         (animationFrameRef s) n (wasBlinkingRef s) (drawingUtilsRef s).
Definition set_wasBlinkingRef (b : bool) (s : Hook) : Hook :=
  mkHook (isInitialized s) (isRunning s) (error s) (faceLandmarkerRef s)
         (animationFrameRef s) (blinkCounterRef s) b (drawingUtilsRef s).
Definition set_drawingUtilsRef (r : option DrawingUtils) (s : Hook) : Hook :=
  mkHook (isInitialized s) (isRunning s) (error s) (faceLandmarkerRef s)
         (animationFrameRef s) (blinkCounterRef s) (wasBlinkingRef s) r.

(** How a call ends: it returns (for an [async] function: its promise is
    fulfilled), or an exception leaves it (the promise is rejected). *)
Inductive Completion := Returned | Threw.

(** ** Initialization *)

Inductive FilesetResolver := theFilesetResolver.

(** What an awaited promise of the engine's loader does. *)
Inductive Settled (A : Type) := Fulfilled (a : A) | Rejected.
Arguments Fulfilled {A} _.
Arguments Rejected {A}.

(** The two loads [initializeDetector] awaits:
    [FilesetResolver.forVisionTasks(url)] and
    [FaceLandmarker.createFromOptions(filesetResolver, options)]. *)
Record MediaPipe := mkMediaPipe {
  forVisionTasks : Settled FilesetResolver;
  createFromOptions : FilesetResolver -> Settled FaceLandmarker
}.

(** The [try] block of [initializeDetector]. *)
Definition initializeDetector_try (mp : MediaPipe) (s : Hook) : Hook * Completion :=
  let s := set_error None s in
  match forVisionTasks mp with
  | Rejected => (s, Threw)
  | Fulfilled filesetResolver =>
      match createFromOptions mp filesetResolver with
      | Rejected => (s, Threw)
      | Fulfilled landmarker =>
          let s := set_faceLandmarkerRef (Some landmarker) s in
          (set_isInitialized true s, Returned)
      end
  end.

Definition init_failure_message : string :=
  "Failed to initialize face detector. Please try again.".

(** [initializeDetector()]: the [try] block, and the [catch] clause when an
    exception left it. *)
Definition initializeDetector (mp : MediaPipe) (s : Hook) : Hook * Completion :=
  match initializeDetector_try mp s with
  | (s, Returned) => (s, Returned)
  | (s, Threw) =>
      let s := set_error (Some init_failure_message) s in
      (set_isInitialized false s, Returned)
  end.

(** ** One frame *)

Section Detection.
Context {num : Type} `{JsNumber num}.

(** The default parameters of [useBlinkDetection]. *)
Definition defaultOptions (handler : bool) : UseBlinkDetectionOptions num :=
  mkOptions handler n_default_threshold 2.

(** What one run of the frame callback reads from outside the hook: the
    video element's [videoWidth] and [currentTime], and the
    [faceLandmarks] field of what [detectForVideo] returns for the
    current picture ([None] when the field is absent; otherwise the
    detected faces, each a landmark array). *)
Record VideoFrame := mkFrame {
  videoWidth : N;
  currentTime : num;
  faceLandmarks : option (list (list (LandmarkPoint num)))
}.

(** The closure one call of [startDetection] creates: the options it was
    built with (the [useCallback] dependencies) and its own
    [lastVideoTime] variable. *)
Record Loop := mkLoop {
  loopOptions : UseBlinkDetectionOptions num;
  lastVideoTime : num
}.

(** The statement under the comment [// Detect blink]: the debouncer,
    fed the averaged EAR of the frame. *)
Definition detectBlink (opts : UseBlinkDetectionOptions num) (avgEAR : num)
    (s : Hook) : Hook * list Event :=
  if nltb avgEAR (earThreshold opts) then
    (set_blinkCounterRef (blinkCounterRef s + 1) s, [])
  else
    let '(s, events) :=
      if (consecutiveFrames opts <=? blinkCounterRef s)%Z then
        if negb (wasBlinkingRef s) then
          (set_wasBlinkingRef true s, if onBlink opts then [Blink] else [])
        else (s, [])
      else (set_wasBlinkingRef false s, []) in
    (set_blinkCounterRef 0 s, events).

(** The body of [detectFrame] up to, and without, the final
    [requestAnimationFrame].  Clearing the canvas and drawing the face mesh
    are left out: they read the landmarks and write pixels only.  The
    engine's [detectForVideo] is taken to deliver its result. *)
Definition detectFrameBody (l : Loop) (f : VideoFrame) (s : Hook)
    : Hook * Loop * list Event * Completion :=
  if negb (bool_decide (is_Some (faceLandmarkerRef s))) || (videoWidth f =? 0)%N
  then (s, l, [], Returned)
  else if nneqb (currentTime f) (lastVideoTime l) then
    let l := mkLoop (loopOptions l) (currentTime f) in
    match faceLandmarks f with
    | Some (landmarks :: _) =>
        match calculateEAR landmarks LEFT_EYE_TOP LEFT_EYE_BOTTOM
                           LEFT_EYE_LEFT LEFT_EYE_RIGHT with
        | None => (s, l, [UncaughtTypeError], Threw)
        | Some leftEAR =>
            match calculateEAR landmarks RIGHT_EYE_TOP RIGHT_EYE_BOTTOM
                               RIGHT_EYE_LEFT RIGHT_EYE_RIGHT with
            | None => (s, l, [UncaughtTypeError], Threw)
            | Some rightEAR =>
                let avgEAR := ndiv (nadd leftEAR rightEAR) n_two in
                let '(s, events) := detectBlink (loopOptions l) avgEAR s in
                (s, l, events, Returned)
            end
        end
    | _ => (s, l, [], Returned)
    end
  else (s, l, [], Returned).

(** ** The browser around the hook *)

(** The hook together with the part of the page it acts on: the
    animation-frame callbacks that were requested and have neither run nor
    been cancelled (each with its handle), the next handle the browser
    will hand out, and the calls made so far. *)
Record World := mkWorld {
  hook : Hook;
  pending : list (positive * Loop);
  nextHandle : positive;
  trace : list Event
}.

Definition initialWorld : World := mkWorld initialHook [] 1 [].

Definition requestAnimationFrame (l : Loop) (w : World) : positive * World :=
  (nextHandle w,
   mkWorld (hook w) (pending w ++ [(nextHandle w, l)])
           (Pos.succ (nextHandle w)) (trace w)).

Definition cancelAnimationFrame (h : positive) (w : World) : World :=
  mkWorld (hook w) (filter (fun p => p.1 <> h) (pending w))
          (nextHandle w) (trace w).

(** [detectFrame], the callback: the body, then the callback requests
    itself again and stores the handle.  An exception skips the request. *)
Definition detectFrame (l : Loop) (f : VideoFrame) (w : World) : World :=
  let '(s, l, events, c) := detectFrameBody l f (hook w) in
  let w := mkWorld s (pending w) (nextHandle w) (trace w ++ events) in
  match c with
  | Threw => w
  | Returned =>
      let '(h, w) := requestAnimationFrame l w in
      mkWorld (set_animationFrameRef (Some h) (hook w))
              (pending w) (nextHandle w) (trace w)
  end.

(** The browser runs the pending callback with handle [h] while the video
    shows [f]; a handle that is not pending runs nothing. *)
Definition animationFrame (h : positive) (f : VideoFrame) (w : World) : World :=
  match list_find (fun p => p.1 = h) (pending w) with
  | Some (_, (_, l)) => detectFrame l f (cancelAnimationFrame h w)
  | None => w
  end.

(** [startDetection(video, canvas)], called with the options [opts] of the
    current render, while the video shows [f].  Sizing the canvas to the
    video is left out: it writes to the canvas only. *)
Definition startDetection (opts : UseBlinkDetectionOptions num)
    (video : option HTMLVideoElement) (canvas : option HTMLCanvasElement)
    (f : VideoFrame) (w : World) : World :=
  match faceLandmarkerRef (hook w), video, canvas with
  | Some _, Some _, Some canvas =>
      match getContext2d canvas with
      | None => w
      | Some ctx =>
          let s := set_drawingUtilsRef (Some theDrawingUtils) (hook w) in
          let s := set_isRunning true s in
          let w := mkWorld s (pending w) (nextHandle w) (trace w) in
          detectFrame (mkLoop opts n_minus_one) f w
      end
  | _, _, _ => w
  end.

(** [stopDetection()] *)
Definition stopDetection (w : World) : World :=
  let w :=
    match animationFrameRef (hook w) with
    | Some h =>
        let w := cancelAnimationFrame h w in
        mkWorld (set_animationFrameRef None (hook w))
                (pending w) (nextHandle w) (trace w)
    | None => w
    end in
  let s := set_isRunning false (hook w) in
  let s := set_blinkCounterRef 0 s in
  let s := set_wasBlinkingRef false s in
  mkWorld s (pending w) (nextHandle w) (trace w).

End Detection.

Arguments VideoFrame num : clear implicits.
Arguments Loop num : clear implicits.
Arguments World num : clear implicits.

(** ** The action dispatcher *)

Module Dispatcher.

(** Modelled from the spec: the Action Dispatcher and its ActionMapping.
    The page component that counts blinks and calls the dispatcher is not
    among the source files; what is there are the components the actions
    end in: the appliance dashboard ([lightOn], [fanOn]), the emergency
    alert and the voice-message modal (each with [isActive]). *)
Inductive ActionId :=
  | ToggleLight | ToggleFan | RaiseEmergencyAlert | OpenVoiceChannel.

(** Modelled from the spec: the static mapping
    [{2: Light, 3: Fan, 5: Emergency, 6: Voice}]. *)
Definition ActionMapping : gmap Z ActionId :=
  {[ 2%Z := ToggleLight; 3%Z := ToggleFan;
     5%Z := RaiseEmergencyAlert; 6%Z := OpenVoiceChannel ]}.

(** The props of the components that show the actions' results. *)
Record Page := mkPage {
  lightOn : bool;
  fanOn : bool;
  emergencyActive : bool;
  voiceActive : bool
}.

(** Modelled from the spec: the external effect of each action. *)
Definition perform (a : ActionId) (p : Page) : Page :=
  match a with
  | ToggleLight => mkPage (negb (lightOn p)) (fanOn p) (emergencyActive p) (voiceActive p)
  | ToggleFan => mkPage (lightOn p) (negb (fanOn p)) (emergencyActive p) (voiceActive p)
  | RaiseEmergencyAlert => mkPage (lightOn p) (fanOn p) true (voiceActive p)
  | OpenVoiceChannel => mkPage (lightOn p) (fanOn p) (emergencyActive p) true
  end.

(** What a dispatch did: the page afterwards, the effects it invoked, in
    order, and the error it surfaced, if any. *)
Record Dispatched := mkDispatched {
  page : Page;
  invoked : list ActionId;
  surfaced : option string
}.

(** Modelled from the spec: given a finalized gesture's [blinkCount],
    consult the mapping; invoke the mapped effect if there is one, and
    otherwise do nothing and surface no error. *)
Definition dispatch (blinkCount : Z) (p : Page) : Dispatched :=
  match ActionMapping !! blinkCount with
  | Some a => mkDispatched (perform a p) [a] None
  | None => mkDispatched p [] None
  end.

End Dispatcher.


(** ** Vocabulary of the statements *)

Section Vocabulary.
Context {num : Type} `{JsNumber num}.

(** Two frames agree at index [i] on what lies in the image plane: both have
    no landmark there, or both have one, with equal [x] and equal [y]. *)
Definition agree_xy_at (a b : list (LandmarkPoint num)) (i : nat) : Prop :=
  (fun p => (x p, y p)) <$> a !! i = (fun p => (x p, y p)) <$> b !! i.

(** The debouncer run over the averaged EARs of successive frames: the
    events of each frame, in order, and the state at the end. *)
Fixpoint detectBlinks (opts : UseBlinkDetectionOptions num) (ears : list num)
    (s : Hook) : list (list Event) * Hook :=
  match ears with
  | [] => ([], s)
  | avgEAR :: ears =>
      let '(s, events) := detectBlink opts avgEAR s in
      let '(rest, s) := detectBlinks opts ears s in
      (events :: rest, s)
  end.

(** The transition rule as the design document words it: below the
    threshold, count the frame; otherwise emit one blink event and set
    [wasBlinking] when the count has reached the minimum and [wasBlinking]
    was false, else emit nothing and clear [wasBlinking]; reset the count in
    either case. *)
Definition debouncer_rule (opts : UseBlinkDetectionOptions num) (avgEAR : num)
    (s : Hook) : Hook * list Event :=
  if nltb avgEAR (earThreshold opts) then
    (set_blinkCounterRef (blinkCounterRef s + 1) s, [])
  else if (consecutiveFrames opts <=? blinkCounterRef s)%Z
          && negb (wasBlinkingRef s) then
    (set_blinkCounterRef 0 (set_wasBlinkingRef true s), [Blink])
  else
    (set_blinkCounterRef 0 (set_wasBlinkingRef false s), []).

(** No face was detected: [faceLandmarks] is absent or empty. *)
Definition no_face (f : VideoFrame num) : Prop :=
  faceLandmarks f = None \/ faceLandmarks f = Some [].

(** The detected face has all the landmarks of the engine's face mesh that
    the hook indexes (MediaPipe delivers 478 per face). *)
Definition complete_face (f : VideoFrame num) : Prop :=
  match faceLandmarks f with
  | Some (landmarks :: _) => (RIGHT_EYE_TOP < length landmarks)%nat
  | _ => True
  end.

(** At most one per-frame loop is alive, the one whose handle the hook
    holds: every pending callback carries the handle in
    [animationFrameRef]. *)
Definition single_loop (w : World num) : Prop :=
  forall h l, (h, l) ∈ pending w -> animationFrameRef (hook w) = Some h.

(** The browser runs a series of animation frames. *)
Definition animationFrames (frames : list (positive * VideoFrame num)) (w : World num)
    : World num :=
  foldl (fun w hf => animationFrame hf.1 hf.2 w) w frames.

End Vocabulary.

(** What the loads of [mp] deliver: the landmarker, or nothing when one of
    the two awaited promises is rejected. *)
Definition loaded (mp : MediaPipe) : option FaceLandmarker :=
  match forVisionTasks mp with
  | Rejected => None
  | Fulfilled r =>
      match createFromOptions mp r with
      | Rejected => None
      | Fulfilled landmarker => Some landmarker
      end
  end.

(** The one law of division the statements use: zero over a positive
    denominator is zero. *)
Class JsNumberLaws (num : Type) `{JsNumber num} : Prop := {
  ndiv_zero_pos : forall d : num, nltb n_zero d = true -> ndiv n_zero d = n_zero
}.

(** Frames of binary64 landmarks used as concrete inputs below. *)
Definition point (a b c : float) : LandmarkPoint float := mkPoint a b c.

(** Lids at (0.1, 0.1) and (0.1, 0.3); corners at (0.2, 0.2) and (0.7, 0.2). *)
Definition open_eye : list (LandmarkPoint float) :=
  [point 0.1 0.1 0; point 0.1 0.3 0; point 0.2 0.2 0; point 0.7 0.2 0]%float.

(** The same eye seen at other depths, followed by one more landmark. *)
Definition open_eye_deep : list (LandmarkPoint float) :=
  [point 0.1 0.1 7; point 0.1 0.3 (-2); point 0.2 0.2 0.5; point 0.7 0.2 9;
   point 0.9 0.9 0.9]%float.

(** Lids that touch and corners that coincide. *)
Definition collapsed_eye : list (LandmarkPoint float) :=
  [point 0.5 0.5 0; point 0.5 0.5 0; point 0.4 0.5 0; point 0.4 0.5 0]%float.

(** Lids that touch, and a corner whose [x] is not a number. *)
Definition nan_corner_eye : list (LandmarkPoint float) :=
  [point 0.5 0.5 0; point 0.5 0.5 0; point nan 0.5 0; point 0.6 0.5 0]%float.

(** A face of 478 landmarks whose lids are [gap] apart and whose eye
    corners are 0.1 apart, for both eyes: its EAR is about [gap * 10]. *)
Definition face (gap : float) : list (LandmarkPoint float) :=
  <[LEFT_EYE_TOP := point 0.3 0.4 0]>
  (<[LEFT_EYE_BOTTOM := point 0.3 (0.4 + gap) 0]>
  (<[LEFT_EYE_LEFT := point 0.25 0.4 0]>
  (<[LEFT_EYE_RIGHT := point 0.35 0.4 0]>
  (<[RIGHT_EYE_TOP := point 0.7 0.4 0]>
  (<[RIGHT_EYE_BOTTOM := point 0.7 (0.4 + gap) 0]>
  (<[RIGHT_EYE_LEFT := point 0.65 0.4 0]>
  (<[RIGHT_EYE_RIGHT := point 0.75 0.4 0]>
  (replicate 478 (point 0.5 0.5 0))))))))).

(** The video at time [t]: eyes open, eyes closed, and no face found. *)
Definition eyes_open (t : float) : VideoFrame float :=
  mkFrame 640 t (Some [face 0.03]).
Definition eyes_closed (t : float) : VideoFrame float :=
  mkFrame 640 t (Some [face 0.01]).
Definition face_lost (t : float) : VideoFrame float :=
  mkFrame 640 t (Some []).

(** An engine that loads, and one whose model download fails. *)
Definition working_engine : MediaPipe :=
  mkMediaPipe (Fulfilled theFilesetResolver) (fun _ => Fulfilled theFaceLandmarker).
Definition broken_engine : MediaPipe :=
  mkMediaPipe (Fulfilled theFilesetResolver) (fun _ => Rejected).

Definition a_canvas : HTMLCanvasElement := mkCanvas (Some theContext2D).

(** The page after a successful [initializeDetector()]. *)
Definition initialized_world : World float :=
  mkWorld (initializeDetector working_engine initialHook).1 [] 1 [].

(** ... after [startDetection(video, canvas)] on an open eye, ... *)
Definition running_world : World float :=
  startDetection (defaultOptions true) (Some theVideo) (Some a_canvas)
                 (eyes_open 0) initialized_world.

(** ... and after a second [startDetection(video, canvas)]. *)
Definition twice_started_world : World float :=
  startDetection (defaultOptions true) (Some theVideo) (Some a_canvas)
                 (eyes_open 0.04) running_world.

(** The debounce cells two closed frames into a closure, with
    [wasBlinking] still set from the blink before. *)
Definition closed_twice_after_blink : Hook :=
  set_wasBlinkingRef true (set_blinkCounterRef 2 initialHook).

(** The running page one closed frame later. *)
Definition closing_world : World float :=
  animationFrame 1 (eyes_closed 0.04) running_world.

(** ** Sessions of the hook *)

#[export] Instance Event_eq_dec : EqDecision Event.
Proof. solve_decision. Defined.

(** How many times [onBlink] was called. *)
Definition blinks (events : list Event) : nat :=
  length (filter (fun e => e = Blink) events).

Section Sessions.
Context {num : Type} `{JsNumber num}.

(** What can happen to a mounted hook: the page calls one of its three
    functions, or the browser runs a requested animation-frame callback. *)
Inductive Operation :=
  | OpInitialize (mp : MediaPipe)
  | OpStart (opts : UseBlinkDetectionOptions num)
            (video : option HTMLVideoElement)
            (canvas : option HTMLCanvasElement) (f : VideoFrame num)
  | OpFrame (h : positive) (f : VideoFrame num)
  | OpStop.

Definition hookStep (op : Operation) (w : World num) : World num :=
  match op with
  | OpInitialize mp =>
      mkWorld (initializeDetector mp (hook w)).1
              (pending w) (nextHandle w) (trace w)
  | OpStart opts video canvas f => startDetection opts video canvas f w
  | OpFrame h f => animationFrame h f w
  | OpStop => stopDetection w
  end.

Definition session (ops : list Operation) (w : World num) : World num :=
  foldl (fun w op => hookStep op w) w ops.

(** No two pending callbacks share a handle, and every handle in use was
    handed out before [nextHandle]. *)
Definition fresh_handles (w : World num) : Prop :=
  NoDup (pending w).*1
  /\ (forall h, h ∈ (pending w).*1 -> (h < nextHandle w)%positive)
  /\ (forall h, animationFrameRef (hook w) = Some h -> (h < nextHandle w)%positive).

(** The frames of a run whose averaged EAR lies below the threshold. *)
Definition closedFrames (opts : UseBlinkDetectionOptions num)
    (ears : list num) : nat :=
  length (filter (fun e => nltb e (earThreshold opts) = true) ears).

(** The first detected face lacks one of the landmarks the hook reads. *)
Definition short_face (f : VideoFrame num) : Prop :=
  exists landmarks faces,
    faceLandmarks f = Some (landmarks :: faces)
    /\ (length landmarks <= RIGHT_EYE_TOP)%nat.

(** The page starts detection only while no callback is pending. *)
Fixpoint starts_when_idle (ops : list Operation) (w : World num) : Prop :=
  match ops with
  | [] => True
  | op :: ops =>
      match op with
      | OpStart _ _ _ _ => pending w = []
      | _ => True
      end
      /\ starts_when_idle ops (hookStep op w)
  end.

End Sessions.

Arguments Operation num : clear implicits.

(** A face cut off after 100 landmarks. *)
Definition cut_face (t : float) : VideoFrame float :=
  mkFrame 640 t (Some [take 100 (face 0.03)]).

(** ** JavaScript strings *)

(** A JavaScript string is a sequence of UTF-16 code units. *)
Abbreviation JsString := (list N).

(** An ASCII literal as a JavaScript string. *)
Definition js (s : string) : JsString :=
  Ascii.N_of_ascii <$> list_ascii_of_string s.

(** The code units [String.prototype.trim] strips: ECMAScript's white space
    and line terminators (TAB, LF, VT, FF, CR, SP, NBSP, U+1680,
    U+2000..U+200A, LS, PS, U+202F, U+205F, U+3000, BOM). *)
Definition isWhiteSpace (c : N) : bool :=
  ((c =? 9) || (c =? 10) || (c =? 11) || (c =? 12) || (c =? 13) || (c =? 32)
   || (c =? 160) || (c =? 5760) || ((8192 <=? c) && (c <=? 8202))
   || (c =? 8232) || (c =? 8233) || (c =? 8239) || (c =? 8287)
   || (c =? 12288) || (c =? 65279))%N.

Fixpoint trimStart (s : JsString) : JsString :=
  match s with
  | [] => []
  | c :: rest => if isWhiteSpace c then trimStart rest else s
  end.

Fixpoint trimEnd (s : JsString) : JsString :=
  match s with
  | [] => []
  | c :: rest =>
      match trimEnd rest with
      | [] => if isWhiteSpace c then [] else [c]
      | kept => c :: kept
      end
  end.

(** [s.trim()] *)
Definition trim (s : JsString) : JsString := trimEnd (trimStart s).

(** [s.includes("@")]: the code unit of "@" occurs in [s]. *)
Definition includesAt (s : JsString) : bool := bool_decide (64%N ∈ s).

(** Truthiness of a value that is a string or [undefined]. *)
Definition truthy (v : option JsString) : bool :=
  match v with
  | Some (_ :: _) => true
  | _ => false
  end.

(** ** The edge function [send-voice-message] *)

Module VoiceMessage.

(** [VoiceMessageRequest], as it arrives: a field the JSON body lacks is
    [None]. *)
Record VoiceMessageRequest := mkVoiceMessageRequest {
  to_email : option JsString;
  message : option JsString;
  time : option JsString
}.

(** The request, as far as the handler looks at it: its method, and what
    [req.json()] does (it rejects with an error, or delivers the body). *)
Record Request := mkRequest {
  method : JsString;
  json : JsString + VoiceMessageRequest
}.

(** The mail handed to [resend.emails.send]: sender, recipients and
    subject, and the two values the HTML template interpolates, [message]
    and [time] (the template around them is fixed text). *)
Record Email := mkEmail {
  from : JsString;
  to : list JsString;
  subject_is_voice_message : bool;
  html_message : JsString;
  html_time : JsString
}.

(** What the mail service answers. *)
Inductive EmailResponse := mkEmailResponse (id : N).

(** What [resend.emails.send] does: it returns, or throws an error with a
    message. *)
Inductive SendOutcome := SendReturned (r : EmailResponse) | SendThrew (msg : JsString).

(** The JSON the handler answers with. *)
Inductive Body :=
  | NoBody
  | ErrorBody (error : JsString)
  | SuccessBody (data : EmailResponse).

Record Response := mkResponse {
  status : N;
  headers : list (JsString * JsString);
  body : Body
}.

Definition corsHeaders : list (JsString * JsString) :=
  [(js "Access-Control-Allow-Origin", js "*");
   (js "Access-Control-Allow-Headers",
    js "authorization, x-client-info, apikey, content-type")].

Definition jsonHeaders : list (JsString * JsString) :=
  (js "Content-Type", js "application/json") :: corsHeaders.

(** [`${v}`] for a value that is a string or [undefined]. *)
Definition toString (v : option JsString) : JsString :=
  match v with
  | Some s => s
  | None => js "undefined"
  end.

(** [handler(req)]: the response, and the mails handed to the mail service
    on the way.  Logging is left out. *)
Definition handler (resend : Email -> SendOutcome) (req : Request)
    : Response * list Email :=
  if bool_decide (method req = js "OPTIONS") then
    (mkResponse 200 corsHeaders NoBody, [])
  else
    match json req with
    | inl msg => (mkResponse 500 jsonHeaders (ErrorBody msg), [])
    | inr r =>
        if negb (truthy (to_email r)) || negb (includesAt (toString (to_email r)))
        then (mkResponse 400 jsonHeaders (ErrorBody (js "Invalid email address")), [])
        else if negb (truthy (message r))
                || bool_decide (length (trim (toString (message r))) = 0%nat)
        then (mkResponse 400 jsonHeaders (ErrorBody (js "No message provided")), [])
        else
          let email :=
            mkEmail (js "BlinkControl Voice Message <onboarding@resend.dev>")
                    [toString (to_email r)] true
                    (toString (message r)) (toString (time r)) in
          match resend email with
          | SendReturned emailResponse =>
              (mkResponse 200 jsonHeaders (SuccessBody emailResponse), [email])
          | SendThrew msg =>
              (mkResponse 500 jsonHeaders (ErrorBody msg), [email])
          end
    end.

(** *** The modal that calls it *)

(** The state cells of [VoiceMessageModal]. *)
Record Modal := mkModal {
  isSending : bool;
  messageSent : bool
}.

Inductive Toast :=
  | CannotSend (description : JsString)
  | VoiceMessageSent
  | FailedToSend (description : JsString).

(** What [supabase.functions.invoke] resolves to: [error] is [null], or an
    error with a message. *)
Inductive Invoked := InvokeOk | InvokeError (msg : JsString).

(** What a run of [handleSendMessage] did besides updating the state: the
    toasts shown, the request bodies sent to the edge function, and whether
    [onDismiss] was scheduled. *)
Record Effects := mkEffects {
  toasts : list Toast;
  invoked : list VoiceMessageRequest;
  dismissScheduled : bool
}.

(** [err.message || "Could not send voice message. Please try again."] *)
Definition orDefault (msg : JsString) : JsString :=
  match msg with
  | [] => js "Could not send voice message. Please try again."
  | _ => msg
  end.

(** [handleSendMessage()], with the transcript and the user's address of
    the current render, at the time [now] (as [toLocaleString] prints it). *)
Definition handleSendMessage (invoke : VoiceMessageRequest -> Invoked)
    (transcript : JsString) (userEmail : option JsString) (now : JsString)
    (m : Modal) : Modal * Effects :=
  if negb (truthy (Some (trim transcript))) || negb (truthy userEmail) then
    (m, mkEffects
          [CannotSend (if negb (truthy (Some (trim transcript)))
                       then js "No message recorded"
                       else js "No email address available")] [] false)
  else
    let body := mkVoiceMessageRequest userEmail (Some (trim transcript)) (Some now) in
    match invoke body with
    | InvokeOk =>
        (mkModal false true, mkEffects [VoiceMessageSent] [body] true)
    | InvokeError msg =>
        (mkModal false (messageSent m),
         mkEffects [FailedToSend (orDefault msg)] [body] false)
    end.

(** [supabase.functions.invoke("send-voice-message", { body })] against
    the handler above: a POST with the body as JSON; a response outside
    2xx comes back as an error. *)
Definition invokeHandler (resend : Email -> SendOutcome)
    (body : VoiceMessageRequest) : Invoked :=
  let response := (handler resend (mkRequest (js "POST") (inr body))).1 in
  if ((200 <=? status response) && (status response <=? 299))%N then InvokeOk
  else InvokeError (js "Edge Function returned a non-2xx status code").

End VoiceMessage.

(** ** The speech-to-text hook *)

Module SpeechToText.

(** A recognition result: [isFinal], and the transcripts of its
    alternatives, [result[0].transcript] first. *)
Record SpeechRecognitionResult := mkResult {
  isFinal : bool;
  alternatives : list JsString
}.

Record SpeechRecognitionEvent := mkEvent {
  resultIndex : nat;
  results : list SpeechRecognitionResult
}.

(** The state cells of [useSpeechToText] and its [recognitionRef]; a
    recognition instance is known by the number the browser gave it. *)
Record State := mkState {
  isListening : bool;
  transcript : JsString;
  error : option JsString;
  recognitionRef : option positive
}.

Definition initialState : State := mkState false [] None None.

(** The [for] loop of [onresult] over the results from [resultIndex] on:
    the final and the interim text gathered, or [None] when a result has no
    alternative and reading [result[0].transcript] throws. *)
Fixpoint gather (rs : list SpeechRecognitionResult)
    (finalTranscript interimTranscript : JsString)
    : option (JsString * JsString) :=
  match rs with
  | [] => Some (finalTranscript, interimTranscript)
  | result :: rs =>
      match alternatives result with
      | [] => None
      | first :: _ =>
          if isFinal result
          then gather rs (finalTranscript ++ first) interimTranscript
          else gather rs finalTranscript (interimTranscript ++ first)
      end
  end.

(** [recognition.onresult] *)
Definition onresult (event : SpeechRecognitionEvent) (s : State) : State :=
  match gather (drop (resultIndex event) (results event)) [] [] with
  | None => s
  | Some (finalTranscript, interimTranscript) =>
      mkState (isListening s)
              (transcript s ++ match finalTranscript with
                               | _ :: _ => finalTranscript
                               | [] => interimTranscript
                               end)
              (error s) (recognitionRef s)
  end.

(** [recognition.onstart] *)
Definition onstart (s : State) : State :=
  mkState true (transcript s) (error s) (recognitionRef s).

(** [recognition.onerror], for the error code [code]. *)
Definition onerror (code : JsString) (s : State) : State :=
  let msg :=
    if bool_decide (code = js "not-allowed")
    then js "Microphone access denied. Please allow microphone access."
    else if bool_decide (code = js "no-speech")
    then js "No speech detected. Please try again."
    else js "Error: " ++ code in
  mkState false (transcript s) (Some msg) (recognitionRef s).

(** [recognition.onend] *)
Definition onend (s : State) : State :=
  mkState false (transcript s) (error s) (recognitionRef s).

(** What a recognition instance can tell the hook. *)
Inductive RecognitionEvent :=
  | Start
  | Result (event : SpeechRecognitionEvent)
  | Error (code : JsString)
  | End_.

Definition handle (e : RecognitionEvent) (s : State) : State :=
  match e with
  | Start => onstart s
  | Result event => onresult event s
  | Error code => onerror code s
  | End_ => onend s
  end.

(** The hook and the recognition instances of the page: those that were
    started and not stopped, and the number of the next one. *)
Record Page := mkPage {
  state : State;
  running : list positive;
  nextInstance : positive
}.

(** What the browser offers: no speech API at all; a constructor that
    throws; an instance whose [start()] throws; or one that starts. *)
Inductive Api := NoApi | ConstructorThrows | StartThrows | Works.

(** [startListening()] *)
Definition startListening (api : Api) (p : Page) : Page :=
  let s := state p in
  match api with
  | NoApi =>
      mkPage (mkState (isListening s) (transcript s)
                (Some (js "Speech recognition is not supported in this browser. Please use Chrome or Edge."))
                (recognitionRef s))
             (running p) (nextInstance p)
  | ConstructorThrows =>
      mkPage (mkState (isListening s) []
                (Some (js "Failed to start speech recognition. Please try again."))
                (recognitionRef s))
             (running p) (nextInstance p)
  | StartThrows =>
      mkPage (mkState (isListening s) []
                (Some (js "Failed to start speech recognition. Please try again."))
                (Some (nextInstance p)))
             (running p) (Pos.succ (nextInstance p))
  | Works =>
      mkPage (mkState (isListening s) [] None (Some (nextInstance p)))
             (running p ++ [nextInstance p]) (Pos.succ (nextInstance p))
  end.

(** [stopListening()] *)
Definition stopListening (p : Page) : Page :=
  let s := state p in
  match recognitionRef s with
  | Some instance =>
      mkPage (mkState false (transcript s) (error s) None)
             (filter (fun i => i <> instance) (running p)) (nextInstance p)
  | None =>
      mkPage (mkState false (transcript s) (error s) None)
             (running p) (nextInstance p)
  end.

(** [resetTranscript()] *)
Definition resetTranscript (p : Page) : Page :=
  let s := state p in
  mkPage (mkState (isListening s) [] None (recognitionRef s))
         (running p) (nextInstance p).

End SpeechToText.

(** * Theorems *)

(** ** Binary64 facts *)

Lemma float_neq (a b : float) :
  PrimFloat.eqb a b = false -> PrimFloat.eqb b b = true -> a <> b.
Proof. intros Hab Hbb E. rewrite E in Hab. congruence. Qed.

Lemma Some_float_neq (a b : float) :
  PrimFloat.eqb a b = false -> PrimFloat.eqb b b = true -> Some a <> Some b.
Proof. intros Hab Hbb E. injection E as E. exact (float_neq a b Hab Hbb E). Qed.

Lemma float_zero_div_pos (d : float) :
  PrimFloat.ltb 0 d = true -> PrimFloat.div 0 d = 0%float.
Proof.
  intros Hd. apply Prim2SF_inj. rewrite div_spec. rewrite ltb_spec in Hd.
  destruct (Prim2SF d) as [s | s | | s m e]; cbn in Hd |- *;
    try discriminate; destruct s; cbn in Hd |- *; try discriminate; reflexivity.
Qed.

#[export] Instance float_JsNumberLaws : JsNumberLaws float.
Proof. constructor. exact float_zero_div_pos. Qed.

#[export] Instance R_JsNumberLaws : JsNumberLaws R.
Proof. constructor. intros d _. cbn. unfold Rdiv. apply Rmult_0_l. Qed.

(** ** The EAR calculator *)

Section EAR_facts.
Context {num : Type} `{JsNumber num}.

(** With the four landmarks present, the call returns the ratio of the
    design document. *)
Lemma calculateEAR_in_range (landmarks : list (LandmarkPoint num))
    (topIdx bottomIdx leftIdx rightIdx : nat)
    (top bottom left right : LandmarkPoint num) :
  landmarks !! topIdx = Some top ->
  landmarks !! bottomIdx = Some bottom ->
  landmarks !! leftIdx = Some left ->
  landmarks !! rightIdx = Some right ->
  calculateEAR landmarks topIdx bottomIdx leftIdx rightIdx
  = Some (EAR_spec top bottom left right).
Proof.
  intros Ht Hb Hl Hr. unfold calculateEAR.
  rewrite Ht, Hb, Hl, Hr. reflexivity.
Qed.

(** A missing landmark is the only way the call fails. *)
Lemma calculateEAR_throws_iff (landmarks : list (LandmarkPoint num))
    (topIdx bottomIdx leftIdx rightIdx : nat) :
  calculateEAR landmarks topIdx bottomIdx leftIdx rightIdx = None <->
  (length landmarks <= topIdx \/ length landmarks <= bottomIdx \/
   length landmarks <= leftIdx \/ length landmarks <= rightIdx)%nat.
Proof.
  unfold calculateEAR. rewrite <- !lookup_ge_None.
  destruct (landmarks !! topIdx), (landmarks !! bottomIdx),
    (landmarks !! leftIdx), (landmarks !! rightIdx); cbn; split;
    try discriminate; try tauto; intros [?|[?|[?|?]]]; discriminate.
Qed.

End EAR_facts.

(** C2 (amended).  For every landmark frame and every four indices that
    address landmarks of the frame, [calculateEAR] returns
    verticalDistance / (horizontalDistance + ε), with ε = 0.0001 and both
    distances Euclidean in the image plane; the division raises nothing;
    and when the vertical distance is 0 and the guarded denominator is
    positive, the result is exactly 0.  This holds in binary64 and in exact
    arithmetic alike. *)
Theorem calculateEAR_ratio {num : Type} `{JsNumberLaws num}
    (landmarks : list (LandmarkPoint num))
    (topIdx bottomIdx leftIdx rightIdx : nat)
    (top bottom left right : LandmarkPoint num) :
  landmarks !! topIdx = Some top ->
  landmarks !! bottomIdx = Some bottom ->
  landmarks !! leftIdx = Some left ->
  landmarks !! rightIdx = Some right ->
  calculateEAR landmarks topIdx bottomIdx leftIdx rightIdx
  = Some (ndiv (euclidean top bottom) (nadd (euclidean left right) n_epsilon))
  /\ (euclidean top bottom = n_zero ->
      nltb n_zero (nadd (euclidean left right) n_epsilon) = true ->
      calculateEAR landmarks topIdx bottomIdx leftIdx rightIdx = Some n_zero).
Proof.
  intros Ht Hb Hl Hr.
  pose proof (calculateEAR_in_range _ _ _ _ _ _ _ _ _ Ht Hb Hl Hr) as E.
  unfold EAR_spec in E. split; [exact E|].
  intros Hv Hpos. rewrite E, Hv. f_equal. apply ndiv_zero_pos, Hpos.
Qed.

(** In binary64: the collapsed eye (vertical and horizontal distance both 0)
    has EAR 0, computed as 0 / 0.0001. *)
Lemma calculateEAR_ratio_witness :
  calculateEAR collapsed_eye 0 1 2 3
  = Some (ndiv (euclidean (point 0.5 0.5 0) (point 0.5 0.5 0))
               (nadd (euclidean (point 0.4 0.5 0) (point 0.4 0.5 0)) n_epsilon))
  /\ calculateEAR collapsed_eye 0 1 2 3 = Some 0%float.
Proof.
  destruct (calculateEAR_ratio collapsed_eye 0 1 2 3
              (point 0.5 0.5 0) (point 0.5 0.5 0)
              (point 0.4 0.5 0) (point 0.4 0.5 0)
              eq_refl eq_refl eq_refl eq_refl) as [E Z].
  split; [exact E|]. apply Z; vm_compute; reflexivity.
Defined.

(** C2, as stated, fails: with an index outside the frame the call throws
    instead of returning a ratio; and with a corner coordinate that is not
    a number, a vertical distance of 0 yields NaN, not 0. *)
Lemma calculateEAR_not_total :
  calculateEAR (num := float) [] LEFT_EYE_TOP LEFT_EYE_BOTTOM
               LEFT_EYE_LEFT LEFT_EYE_RIGHT = None
  /\ euclidean (point 0.5 0.5 0) (point 0.5 0.5 0) = 0%float
  /\ calculateEAR nan_corner_eye 0 1 2 3 <> Some 0%float.
Proof.
  split; [reflexivity|]. split; [vm_compute; reflexivity|].
  intros E. vm_compute in E.
  revert E. apply Some_float_neq; vm_compute; reflexivity.
Qed.

(** In exact arithmetic the guarded denominator is always positive. *)
Lemma R_denominator_pos (left right : LandmarkPoint R) :
  nltb n_zero (nadd (euclidean left right) n_epsilon) = true.
Proof.
  cbn. destruct (Rlt_dec _ _) as [|Hn]; [reflexivity|].
  exfalso. apply Hn.
  pose proof (sqrt_pos ((x left - x right) * (x left - x right)
                        + (y left - y right) * (y left - y right))).
  unfold euclidean; cbn. lra.
Qed.

(** In binary64, corners that coincide leave the denominator at ε and the
    call still returns a number. *)
Example calculateEAR_corners_coincide :
  calculateEAR [point 0.1 0.1 0; point 0.1 0.3 0;
                point 0.4 0.5 0; point 0.4 0.5 0]%float 0 1 2 3
  = Some 1999.9999999999998%float.
Proof. vm_compute. reflexivity. Qed.

(** C9.  [calculateEAR] reads nothing but the [x] and [y] of the four
    indexed landmarks: two frames that agree on them at the four indices
    (and may differ in every [z], in length and in all other landmarks) get
    the same result. *)
Theorem calculateEAR_ignores_z {num : Type} `{JsNumber num}
    (a b : list (LandmarkPoint num))
    (topIdx bottomIdx leftIdx rightIdx : nat) :
  agree_xy_at a b topIdx -> agree_xy_at a b bottomIdx ->
  agree_xy_at a b leftIdx -> agree_xy_at a b rightIdx ->
  calculateEAR a topIdx bottomIdx leftIdx rightIdx
  = calculateEAR b topIdx bottomIdx leftIdx rightIdx.
Proof.
  unfold agree_xy_at, calculateEAR. intros Ht Hb Hl Hr.
  destruct (a !! topIdx) as [[]|], (b !! topIdx) as [[]|];
    cbn in Ht; try discriminate; [|reflexivity].
  destruct (a !! bottomIdx) as [[]|], (b !! bottomIdx) as [[]|];
    cbn in Hb; try discriminate; [|reflexivity].
  destruct (a !! leftIdx) as [[]|], (b !! leftIdx) as [[]|];
    cbn in Hl; try discriminate; [|reflexivity].
  destruct (a !! rightIdx) as [[]|], (b !! rightIdx) as [[]|];
    cbn in Hr; try discriminate; [|reflexivity].
  cbn. congruence.
Qed.

Lemma calculateEAR_ignores_z_witness :
  calculateEAR open_eye 0 1 2 3 = calculateEAR open_eye_deep 0 1 2 3.
Proof.
  apply (calculateEAR_ignores_z open_eye open_eye_deep 0 1 2 3);
    reflexivity.
Defined.

(** C7, as stated, fails in binary64: moving every landmark of [open_eye]
    by (0, 0.5, 0), which keeps all coordinates in [0, 1], changes the
    computed EAR (0.3999200159968006 becomes 0.39992001599680077); moving
    it by (1000, 1000, 0) changes it from the 13th digit on. *)
Lemma calculateEAR_translation_rounds :
  calculateEAR (translate 0%float 0.5%float 0%float open_eye) 0 1 2 3
  <> calculateEAR open_eye 0 1 2 3
  /\ calculateEAR open_eye 0 1 2 3 = Some 0.3999200159968006%float
  /\ calculateEAR (translate 1000%float 1000%float 0%float open_eye) 0 1 2 3
     = Some 0.39992001599666427%float.
Proof.
  split; [|split; vm_compute; reflexivity].
  intros E. vm_compute in E.
  revert E. apply Some_float_neq; vm_compute; reflexivity.
Qed.

(** C7 (amended).  In exact arithmetic, EAR is invariant under uniform
    translation: adding one offset vector to every landmark leaves the
    result of [calculateEAR] unchanged, for every frame and all indices. *)
Theorem calculateEAR_translation_invariant
    (landmarks : list (LandmarkPoint R)) (dx dy dz : R)
    (topIdx bottomIdx leftIdx rightIdx : nat) :
  calculateEAR (translate dx dy dz landmarks) topIdx bottomIdx leftIdx rightIdx
  = calculateEAR landmarks topIdx bottomIdx leftIdx rightIdx.
Proof.
  unfold calculateEAR, translate. rewrite !list_lookup_fmap.
  destruct (landmarks !! topIdx) as [top|]; [|reflexivity].
  destruct (landmarks !! bottomIdx) as [bottom|]; [|reflexivity].
  destruct (landmarks !! leftIdx) as [left|]; [|reflexivity].
  destruct (landmarks !! rightIdx) as [right|]; [|reflexivity].
  cbn.
  replace (x top + dx - (x bottom + dx))%R with (x top - x bottom)%R by ring.
  replace (y top + dy - (y bottom + dy))%R with (y top - y bottom)%R by ring.
  replace (x left + dx - (x right + dx))%R with (x left - x right)%R by ring.
  replace (y left + dy - (y right + dy))%R with (y left - y right)%R by ring.
  reflexivity.
Qed.

(** ** The blink debouncer *)

Section Debouncer_facts.
Context {num : Type} `{JsNumber num}.

(** The debouncer writes the two debounce cells and nothing else. *)
Lemma detectBlink_frame (opts : UseBlinkDetectionOptions num) (avgEAR : num)
    (s : Hook) :
  let s' := (detectBlink opts avgEAR s).1 in
  s' = set_blinkCounterRef (blinkCounterRef s')
         (set_wasBlinkingRef (wasBlinkingRef s') s).
Proof.
  unfold detectBlink. destruct s as [i r e fl af c wb du]; cbn.
  destruct (nltb _ _); [reflexivity|].
  destruct (_ <=? _)%Z; [destruct wb|]; reflexivity.
Qed.

(** A frame below the threshold is counted, and nothing is emitted. *)
Lemma detectBlink_below (opts : UseBlinkDetectionOptions num) (avgEAR : num)
    (s : Hook) :
  nltb avgEAR (earThreshold opts) = true ->
  detectBlink opts avgEAR s = (set_blinkCounterRef (blinkCounterRef s + 1) s, []).
Proof. intros Hlt. unfold detectBlink. rewrite Hlt. reflexivity. Qed.

(** A frame that is not below the threshold resets the count; it leaves
    [wasBlinking] equal to "the count had reached the minimum", and calls
    [onBlink] when that is so and [wasBlinking] was not set yet. *)
Lemma detectBlink_reopened (opts : UseBlinkDetectionOptions num) (avgEAR : num)
    (s : Hook) :
  nltb avgEAR (earThreshold opts) = false ->
  detectBlink opts avgEAR s =
    (set_blinkCounterRef 0
       (set_wasBlinkingRef (consecutiveFrames opts <=? blinkCounterRef s)%Z s),
     if (consecutiveFrames opts <=? blinkCounterRef s)%Z
        && negb (wasBlinkingRef s) && onBlink opts
     then [Blink] else []).
Proof.
  intros Hge. unfold detectBlink. rewrite Hge.
  destruct s as [i r e fl af c wb du]; cbn.
  destruct (_ <=? _)%Z; [destruct wb|]; cbn; [reflexivity| |reflexivity].
  destruct (onBlink opts); reflexivity.
Qed.

(** The rule of the design document and the code part ways in one case
    only: a reopening after a long enough closure while [wasBlinking] is
    still set, where the code leaves [wasBlinking] set. *)
Lemma detectBlink_vs_rule (opts : UseBlinkDetectionOptions num) (avgEAR : num)
    (s : Hook) :
  onBlink opts = true ->
  nltb avgEAR (earThreshold opts) = true
  \/ (consecutiveFrames opts <=? blinkCounterRef s)%Z && wasBlinkingRef s = false ->
  detectBlink opts avgEAR s = debouncer_rule opts avgEAR s.
Proof.
  intros Hon Hcase. unfold detectBlink, debouncer_rule.
  destruct (nltb _ _); [reflexivity|].
  destruct Hcase as [|Hcase]; [discriminate|].
  destruct s as [i r e fl af c wb du]; cbn in *.
  destruct (_ <=? _)%Z, wb; cbn in *; try discriminate; rewrite ?Hon; reflexivity.
Qed.

End Debouncer_facts.

(** The state of the next statement is reached from the initial one: a
    blink, one open frame, two closed frames. *)
Example closed_twice_after_blink_reached :
  (detectBlinks (mkOptions true 0.2%float 2)
                [0.15; 0.15; 0.3; 0.15; 0.15]%float initialHook).2
  = closed_twice_after_blink.
Proof. vm_compute. reflexivity. Qed.

(** C1, as stated, fails: on a reopening frame (EAR 0.3, threshold 0.2)
    after two closed frames with [wasBlinking] already true, the code emits
    nothing, as the claim says, but leaves [wasBlinking] true where the
    claim has it set to false. *)
Lemma detectBlink_keeps_wasBlinking :
  wasBlinkingRef (detectBlink (defaultOptions true) 0.3%float
                              closed_twice_after_blink).1 = true
  /\ wasBlinkingRef (debouncer_rule (defaultOptions true) 0.3%float
                                    closed_twice_after_blink).1 = false
  /\ (detectBlink (defaultOptions true) 0.3%float closed_twice_after_blink).2 = [].
Proof. vm_compute. repeat split; reflexivity. Qed.

(** C1 (amended).  Applied to the averaged EAR of a frame, the debouncer
    touches only its two cells.  Below the threshold it increments
    [consecutiveClosedFrames], keeps [wasBlinking] and emits nothing.
    Otherwise it resets [consecutiveClosedFrames] to 0, emits exactly one
    blink event if and only if the count had reached
    [minConsecutiveClosedFrames] and [wasBlinking] was false (and a handler
    is installed), and leaves [wasBlinking] true when the count had reached
    the minimum (also when it was true already), false when it had not.
    With threshold 0.2 and minimum 2, the EARs 0.3, 0.3, 0.15, 0.15, 0.3
    give exactly one event, at the last frame, and 0.3, 0.15, 0.3 give
    none. *)
Theorem detectBlink_transition (opts : UseBlinkDetectionOptions float)
    (avgEAR : float) (s : Hook) :
  let s' := (detectBlink opts avgEAR s).1 in
  let events := (detectBlink opts avgEAR s).2 in
  s' = set_blinkCounterRef (blinkCounterRef s')
         (set_wasBlinkingRef (wasBlinkingRef s') s)
  /\ (if (avgEAR <? earThreshold opts)%float then
        blinkCounterRef s' = (blinkCounterRef s + 1)%Z
        /\ wasBlinkingRef s' = wasBlinkingRef s
        /\ events = []
      else
        blinkCounterRef s' = 0%Z
        /\ wasBlinkingRef s' = (consecutiveFrames opts <=? blinkCounterRef s)%Z
        /\ events = if (consecutiveFrames opts <=? blinkCounterRef s)%Z
                       && negb (wasBlinkingRef s) && onBlink opts
                    then [Blink] else [])
  /\ (detectBlinks (mkOptions true 0.2%float 2) [0.3; 0.3; 0.15; 0.15; 0.3]%float
                   initialHook).1 = [[]; []; []; []; [Blink]]
  /\ (detectBlinks (mkOptions true 0.2%float 2) [0.3; 0.15; 0.3]%float
                   initialHook).1 = [[]; []; []].
Proof.
  cbv zeta. split; [apply detectBlink_frame|]. split.
  - change PrimFloat.ltb with (nltb (num := float)).
    destruct (nltb avgEAR (earThreshold opts)) eqn:E.
    + rewrite (detectBlink_below _ _ _ E). destruct s; repeat split.
    + rewrite (detectBlink_reopened _ _ _ E). destruct s; repeat split.
  - split; vm_compute; reflexivity.
Qed.

(** Back-to-back blinks with a single open frame between them: the flag is
    never cleared, so only the first closure is reported. *)
Example detectBlinks_back_to_back :
  (detectBlinks (mkOptions true 0.2%float 2)
                [0.15; 0.15; 0.3; 0.15; 0.15; 0.3; 0.15; 0.15; 0.3]%float
                initialHook).1
  = [[]; []; [Blink]; []; []; []; []; []; []].
Proof. vm_compute. reflexivity. Qed.

(** ** The frame callback *)

Section Frame_facts.
Context {num : Type} `{JsNumber num}.

(** [detectFrame] in one piece: what the body did, and the new request
    unless the body threw. *)
Lemma detectFrame_unfold (l : Loop num) (f : VideoFrame num) (w : World num) :
  detectFrame l f w =
    let r := detectFrameBody l f (hook w) in
    match r.2 with
    | Threw =>
        mkWorld r.1.1.1 (pending w) (nextHandle w) (trace w ++ r.1.2)
    | Returned =>
        mkWorld (set_animationFrameRef (Some (nextHandle w)) r.1.1.1)
                (pending w ++ [(nextHandle w, r.1.1.2)])
                (Pos.succ (nextHandle w)) (trace w ++ r.1.2)
    end.
Proof.
  unfold detectFrame.
  destruct (detectFrameBody l f (hook w)) as [[[s l'] events] []]; reflexivity.
Qed.

(** Without a face the body returns at once: no cell of the hook changes
    and nothing is emitted. *)
Lemma detectFrameBody_no_face (l : Loop num) (f : VideoFrame num) (s : Hook) :
  no_face f ->
  exists l', detectFrameBody l f s = (s, l', [], Returned).
Proof.
  intros Hf. unfold detectFrameBody.
  destruct (_ || _); [eauto|].
  destruct (nneqb _ _); [|eauto].
  destruct Hf as [-> | ->]; eauto.
Qed.

(** With a complete face the body never throws. *)
Lemma detectFrameBody_complete (l : Loop num) (f : VideoFrame num) (s : Hook) :
  complete_face f -> (detectFrameBody l f s).2 = Returned.
Proof.
  unfold complete_face, detectFrameBody. intros Hf.
  destruct (_ || _); [reflexivity|].
  destruct (nneqb _ _); [|reflexivity].
  destruct (faceLandmarks f) as [[|landmarks faces]|]; try reflexivity.
  destruct (calculateEAR landmarks LEFT_EYE_TOP _ _ _) as [leftEAR|] eqn:EL.
  2: { apply calculateEAR_throws_iff in EL. revert EL Hf.
       unfold LEFT_EYE_TOP, LEFT_EYE_BOTTOM, LEFT_EYE_LEFT, LEFT_EYE_RIGHT,
         RIGHT_EYE_TOP. lia. }
  destruct (calculateEAR landmarks RIGHT_EYE_TOP _ _ _) as [rightEAR|] eqn:ER.
  2: { apply calculateEAR_throws_iff in ER. revert ER Hf.
       unfold RIGHT_EYE_TOP, RIGHT_EYE_BOTTOM, RIGHT_EYE_LEFT, RIGHT_EYE_RIGHT.
       lia. }
  cbn. destruct (detectBlink _ _ _). reflexivity.
Qed.

(** The body leaves [isRunning], [isInitialized], [error] and the
    landmarker alone. *)
Lemma detectFrameBody_status (l : Loop num) (f : VideoFrame num) (s : Hook) :
  let s' := (detectFrameBody l f s).1.1.1 in
  isRunning s' = isRunning s /\ isInitialized s' = isInitialized s
  /\ error s' = error s /\ faceLandmarkerRef s' = faceLandmarkerRef s
  /\ animationFrameRef s' = animationFrameRef s.
Proof.
  cbv zeta. unfold detectFrameBody.
  destruct (_ || _); [cbn; tauto|].
  destruct (nneqb _ _); [|cbn; tauto].
  destruct (faceLandmarks f) as [[|landmarks faces]|]; try (cbn; tauto).
  destruct (calculateEAR landmarks LEFT_EYE_TOP _ _ _) as [leftEAR|];
    [|cbn; tauto].
  destruct (calculateEAR landmarks RIGHT_EYE_TOP _ _ _) as [rightEAR|];
    [|cbn; tauto].
  cbn zeta.
  pose proof (detectBlink_frame (loopOptions (mkLoop (loopOptions l) (currentTime f)))
                (ndiv (nadd leftEAR rightEAR) n_two) s) as E.
  destruct (detectBlink _ _ s) as [s' events]. cbn in E |- *.
  rewrite E. destruct s. cbn. tauto.
Qed.

End Frame_facts.

(** C3.  A frame in which no face is detected ([faceLandmarks] absent or
    empty) changes neither [consecutiveClosedFrames] nor [wasBlinking] and
    emits no event, whether the callback is run directly or by the browser:
    a dropout does not reset a closure that is being counted. *)
Theorem no_face_frame_skipped {num : Type} `{JsNumber num}
    (l : Loop num) (h : positive) (f : VideoFrame num) (w : World num) :
  no_face f ->
  (blinkCounterRef (hook (detectFrame l f w)) = blinkCounterRef (hook w)
   /\ wasBlinkingRef (hook (detectFrame l f w)) = wasBlinkingRef (hook w)
   /\ trace (detectFrame l f w) = trace w)
  /\ (blinkCounterRef (hook (animationFrame h f w)) = blinkCounterRef (hook w)
      /\ wasBlinkingRef (hook (animationFrame h f w)) = wasBlinkingRef (hook w)
      /\ trace (animationFrame h f w) = trace w).
Proof.
  intros Hf.
  assert (Hd : forall l w,
             blinkCounterRef (hook (detectFrame l f w)) = blinkCounterRef (hook w)
             /\ wasBlinkingRef (hook (detectFrame l f w)) = wasBlinkingRef (hook w)
             /\ trace (detectFrame l f w) = trace w).
  { intros l0 w0. rewrite detectFrame_unfold.
    destruct (detectFrameBody_no_face l0 f (hook w0) Hf) as [l' ->]. cbn.
    rewrite app_nil_r. destruct (hook w0). repeat split. }
  split; [apply Hd|].
  unfold animationFrame.
  destruct (list_find _ _) as [[i [h' l']]|]; [|repeat split].
  apply (Hd l' (cancelAnimationFrame h w)).
Qed.

(** After one closed frame the count is 1; the frame without a face that
    follows leaves it at 1. *)
Lemma no_face_frame_skipped_witness :
  blinkCounterRef (hook closing_world) = 1%Z
  /\ blinkCounterRef (hook (animationFrame 2 (face_lost 0.08) closing_world)) = 1%Z
  /\ trace (animationFrame 2 (face_lost 0.08) closing_world) = [].
Proof.
  destruct (no_face_frame_skipped (mkLoop (defaultOptions true) 0%float) 2
              (face_lost 0.08) closing_world (or_intror eq_refl))
    as [_ (Hc & _ & Ht)].
  rewrite Hc, Ht. vm_compute. repeat split; reflexivity.
Defined.

(** A blink with a dropout in the middle of the closure is still reported:
    closed, no face, closed, open. *)
Example dropout_inside_blink :
  trace (animationFrames [(1%positive, eyes_closed 0.04);
                          (2%positive, face_lost 0.08);
                          (3%positive, eyes_closed 0.12);
                          (4%positive, eyes_open 0.16)] running_world)
  = [Blink].
Proof. vm_compute. reflexivity. Qed.

(** ** Start and stop *)

Section Session_facts.
Context {num : Type} `{JsNumber num}.

Lemma filter_handle_all (h : positive) (ps : list (positive * Loop num)) :
  (forall h' l, (h', l) ∈ ps -> h' = h) ->
  filter (fun p => p.1 <> h) ps = [].
Proof.
  induction ps as [|[h' l] ps IH]; intros Hall; [reflexivity|].
  rewrite filter_cons. cbn.
  destruct (decide (h' <> h)) as [Hne|_].
  - exfalso. apply Hne. apply (Hall h' l). left.
  - apply IH. intros h'' l' Hin. apply (Hall h'' l'). right. exact Hin.
Qed.

(** With no callback pending, the browser has nothing to run. *)
Lemma animationFrame_idle (h : positive) (f : VideoFrame num) (w : World num) :
  pending w = [] -> animationFrame h f w = w.
Proof. intros Hp. unfold animationFrame. rewrite Hp. reflexivity. Qed.

Lemma animationFrames_idle (frames : list (positive * VideoFrame num))
    (w : World num) :
  pending w = [] -> animationFrames frames w = w.
Proof.
  intros Hp. unfold animationFrames.
  induction frames as [|[h f] frames IH]; [reflexivity|].
  cbn. rewrite (animationFrame_idle h f w Hp). exact IH.
Qed.

(** A callback that runs while nothing else is pending leaves at most its
    own successor pending. *)
Lemma detectFrame_single_loop (l : Loop num) (f : VideoFrame num) (w : World num) :
  pending w = [] -> single_loop (detectFrame l f w).
Proof.
  intros Hp. rewrite detectFrame_unfold. cbv zeta.
  destruct (detectFrameBody l f (hook w)) as [[[s l'] events] []]; cbn;
    rewrite Hp; intros h0 l0 Hin; cbn in Hin.
  - apply list_elem_of_singleton in Hin. injection Hin as -> ->.
    destruct s; reflexivity.
  - apply elem_of_nil in Hin. destruct Hin.
Qed.

(** The invariant survives every animation frame ... *)
Lemma animationFrame_single_loop (h : positive) (f : VideoFrame num)
    (w : World num) :
  single_loop w -> single_loop (animationFrame h f w).
Proof.
  intros Hw. unfold animationFrame.
  destruct (list_find _ _) as [[i [h' l]]|] eqn:E; [|exact Hw].
  apply list_find_Some in E as (Hi & Hh & _). cbn in Hh. subst h'.
  apply detectFrame_single_loop. cbn.
  apply filter_handle_all. intros h' l' Hin.
  pose proof (Hw h' l' Hin) as E1.
  pose proof (Hw h l (list_elem_of_lookup_2 _ _ _ Hi)) as E2.
  congruence.
Qed.

(** ... and is established by a start that finds no callback pending. *)
Lemma startDetection_single_loop (opts : UseBlinkDetectionOptions num)
    (video : option HTMLVideoElement) (canvas : option HTMLCanvasElement)
    (f : VideoFrame num) (w : World num) :
  pending w = [] -> single_loop (startDetection opts video canvas f w).
Proof.
  intros Hp.
  assert (Hw : single_loop w).
  { intros h l Hin. rewrite Hp in Hin. apply elem_of_nil in Hin. destruct Hin. }
  unfold startDetection.
  destruct (faceLandmarkerRef (hook w)), video, canvas as [c|]; try exact Hw.
  destruct (getContext2d c); [|exact Hw].
  apply detectFrame_single_loop. exact Hp.
Qed.

(** [stopDetection] empties the callback list of a single loop. *)
Lemma stopDetection_pending (w : World num) :
  single_loop w -> pending (stopDetection w) = [].
Proof.
  intros Hw. unfold stopDetection.
  destruct (animationFrameRef (hook w)) as [h|] eqn:E; cbn.
  - apply filter_handle_all. intros h' l Hin.
    specialize (Hw h' l Hin). congruence.
  - destruct (pending w) as [|[h l] ps] eqn:Ep; [reflexivity|].
    specialize (Hw h l). rewrite Ep in Hw.
    specialize (Hw (list_elem_of_here _ _)). congruence.
Qed.

(** The start past its guards: the hook is marked running and the callback
    runs once, synchronously. *)
Lemma startDetection_past_guards (opts : UseBlinkDetectionOptions num)
    (landmarker : FaceLandmarker) (video : HTMLVideoElement)
    (ctx : CanvasRenderingContext2D) (f : VideoFrame num) (w : World num) :
  faceLandmarkerRef (hook w) = Some landmarker ->
  startDetection opts (Some video) (Some (mkCanvas (Some ctx))) f w
  = detectFrame (mkLoop opts n_minus_one) f
      (mkWorld (set_isRunning true
                  (set_drawingUtilsRef (Some theDrawingUtils) (hook w)))
               (pending w) (nextHandle w) (trace w)).
Proof. intros E. unfold startDetection. rewrite E. reflexivity. Qed.

End Session_facts.

Section Session_steps.
Context {num : Type} `{JsNumber num}.

(** The body keeps the options of the loop it runs in. *)
Lemma detectFrameBody_options (l : Loop num) (f : VideoFrame num) (s : Hook) :
  loopOptions (detectFrameBody l f s).1.1.2 = loopOptions l.
Proof.
  unfold detectFrameBody.
  destruct (_ || _); [reflexivity|].
  destruct (nneqb _ _); [|reflexivity].
  destruct (faceLandmarks f) as [[|landmarks faces]|]; try reflexivity.
  destruct (calculateEAR landmarks LEFT_EYE_TOP _ _ _); [|reflexivity].
  destruct (calculateEAR landmarks RIGHT_EYE_TOP _ _ _); [|reflexivity].
  cbn zeta. destruct (detectBlink _ _ s). reflexivity.
Qed.

(** One run of the body counts at most one frame. *)
Lemma detectFrameBody_counter (l : Loop num) (f : VideoFrame num) (s : Hook) :
  let c' := blinkCounterRef (detectFrameBody l f s).1.1.1 in
  c' = blinkCounterRef s \/ c' = (blinkCounterRef s + 1)%Z \/ c' = 0%Z.
Proof.
  cbv zeta. unfold detectFrameBody.
  destruct (_ || _); [left; reflexivity|].
  destruct (nneqb _ _); [|left; reflexivity].
  destruct (faceLandmarks f) as [[|landmarks faces]|]; try (left; reflexivity).
  destruct (calculateEAR landmarks LEFT_EYE_TOP _ _ _); [|left; reflexivity].
  destruct (calculateEAR landmarks RIGHT_EYE_TOP _ _ _); [|left; reflexivity].
  cbn zeta. unfold detectBlink.
  destruct (nltb _ _); [right; left; destruct s; reflexivity|].
  right; right.
  destruct (_ <=? _)%Z; [destruct (negb _)|]; destruct s; reflexivity.
Qed.

End Session_steps.




(** C5, as stated, fails: [startDetection] on the running page is no
    no-op.  A second callback is pending afterwards, next to the first. *)
Lemma startDetection_not_idempotent :
  isRunning (hook running_world) = true
  /\ length (pending running_world) = 1%nat
  /\ length (pending (startDetection (defaultOptions true) (Some theVideo)
                        (Some a_canvas) (eyes_open 0.04) running_world)) = 2%nat
  /\ startDetection (defaultOptions true) (Some theVideo) (Some a_canvas)
       (eyes_open 0.04) running_world <> running_world.
Proof.
  split; [vm_compute; reflexivity|]. split; [vm_compute; reflexivity|].
  split; [vm_compute; reflexivity|].
  intros E. apply (f_equal (fun w => length (pending w))) in E.
  vm_compute in E. discriminate E.
Qed.

(** C5 (amended).  [startDetection] has no guard on [isRunning]: with the
    landmarker loaded and the video, the canvas and its 2D context present,
    every call, also one made while detection is running, sets [isRunning]
    and runs the frame callback once, synchronously, on the current
    picture: the events emitted and the cells of the hook are those the
    body of [detectFrame] yields for a loop created with the options of the
    call and [lastVideoTime] -1.  When that run returns, which it always
    does when the first detected face is complete or no face is detected,
    the call requests one more animation frame, in addition to all
    callbacks already pending, and stores the new handle.  When the run
    throws (a first face that lacks a landmark), nothing is requested. *)
Theorem startDetection_adds_loop {num : Type} `{JsNumber num}
    (opts : UseBlinkDetectionOptions num) (landmarker : FaceLandmarker)
    (video : HTMLVideoElement) (ctx : CanvasRenderingContext2D)
    (f : VideoFrame num) (w : World num) :
  faceLandmarkerRef (hook w) = Some landmarker ->
  let started :=
    set_isRunning true (set_drawingUtilsRef (Some theDrawingUtils) (hook w)) in
  let ran := detectFrameBody (mkLoop opts n_minus_one) f started in
  let w' := startDetection opts (Some video) (Some (mkCanvas (Some ctx))) f w in
  isRunning (hook w') = true
  /\ trace w' = trace w ++ ran.1.2
  /\ loopOptions ran.1.1.2 = opts
  /\ match ran.2 with
     | Returned =>
         hook w' = set_animationFrameRef (Some (nextHandle w)) ran.1.1.1
         /\ pending w' = pending w ++ [(nextHandle w, ran.1.1.2)]
         /\ nextHandle w' = Pos.succ (nextHandle w)
     | Threw =>
         hook w' = ran.1.1.1
         /\ pending w' = pending w
         /\ nextHandle w' = nextHandle w
     end
  /\ (complete_face f ->
      ran.2 = Returned
      /\ animationFrameRef (hook w') = Some (nextHandle w)
      /\ length (pending w') = S (length (pending w))).
Proof.
  intros Hfl started ran w'. unfold w'.
  rewrite (startDetection_past_guards opts landmarker video ctx f w Hfl).
  rewrite detectFrame_unfold. cbv zeta. cbn [hook pending nextHandle trace].
  fold started. fold ran.
  pose proof (detectFrameBody_complete (mkLoop opts n_minus_one) f started) as Hc.
  pose proof (detectFrameBody_status (mkLoop opts n_minus_one) f started) as Hs.
  pose proof (detectFrameBody_options (mkLoop opts n_minus_one) f started) as Ho.
  cbv zeta in Hs. fold ran in Hc, Hs, Ho.
  destruct ran as [[[s1 l1] ev1] c1]. cbn [fst snd] in *.
  destruct Hs as (Hr & _).
  assert (Hrun : isRunning s1 = true).
  { rewrite Hr. unfold started. destruct (hook w). reflexivity. }
  split; [destruct c1, s1; cbn in *; exact Hrun|].
  split; [destruct c1; reflexivity|].
  split; [exact Ho|].
  split; [destruct c1; repeat split|].
  intros Hf. specialize (Hc Hf). subst c1. cbn.
  split; [reflexivity|]. split; [destruct s1; reflexivity|].
  rewrite length_app. cbn. lia.
Qed.

(** A start on the running page while the eye is closed: the callback has
    run, the closed frame is counted, and a second callback is pending. *)
Lemma startDetection_adds_loop_witness :
  blinkCounterRef (hook (startDetection (defaultOptions true) (Some theVideo)
                           (Some a_canvas) (eyes_closed 0.04) running_world))
  = 1%Z
  /\ length (pending (startDetection (defaultOptions true) (Some theVideo)
                        (Some a_canvas) (eyes_closed 0.04) running_world))
     = 2%nat
  /\ isRunning (hook (startDetection (defaultOptions true) (Some theVideo)
                        (Some a_canvas) (eyes_closed 0.04) running_world))
     = true.
Proof.
  destruct (startDetection_adds_loop (defaultOptions true) theFaceLandmarker
              theVideo theContext2D (eyes_closed 0.04) running_world eq_refl)
    as (Hr & _ & _ & Hm & Hc).
  destruct Hc as (Hret & _ & Hl); [vm_compute; lia|].
  rewrite Hret in Hm. destruct Hm as (Hh & _ & _).
  split; [|split; [exact Hl|exact Hr]].
  unfold a_canvas. rewrite Hh. vm_compute. reflexivity.
Defined.

(** The same start on a face cut off after 100 landmarks: the callback
    throws, and no second callback is requested. *)
Example startDetection_short_face :
  pending (startDetection (defaultOptions true) (Some theVideo)
             (Some a_canvas)
             (mkFrame 640 0.04%float (Some [take 100 (face 0.03)]))
             running_world)
  = pending running_world
  /\ trace (startDetection (defaultOptions true) (Some theVideo)
              (Some a_canvas)
              (mkFrame 640 0.04%float (Some [take 100 (face 0.03)]))
              running_world)
     = [UncaughtTypeError].
Proof. vm_compute. split; reflexivity. Qed.

(** Two loops count every picture twice: after a second start, a single
    closed frame is reported as a blink. *)
Example double_start_double_counts :
  trace (animationFrames [(1%positive, eyes_closed 0.08);
                          (2%positive, eyes_closed 0.08);
                          (3%positive, eyes_open 0.12)] twice_started_world)
  = [Blink].
Proof. vm_compute. reflexivity. Qed.

(** C10.  [startDetection] before the landmarker is loaded, or without a
    video, a canvas or a 2D context, returns at once and changes nothing:
    no callback is requested, [isRunning] is not set, the debounce cells
    keep their values. *)
Theorem startDetection_guard {num : Type} `{JsNumber num}
    (opts : UseBlinkDetectionOptions num)
    (video : option HTMLVideoElement) (canvas : option HTMLCanvasElement)
    (f : VideoFrame num) (w : World num) :
  faceLandmarkerRef (hook w) = None \/ video = None \/ canvas = None
  \/ (exists c, canvas = Some c /\ getContext2d c = None) ->
  startDetection opts video canvas f w = w.
Proof.
  unfold startDetection. intros [E | [E | [E | (c & E & Ec)]]].
  - rewrite E. reflexivity.
  - rewrite E. destruct (faceLandmarkerRef (hook w)); reflexivity.
  - rewrite E. destruct (faceLandmarkerRef (hook w)), video; reflexivity.
  - rewrite E, Ec. destruct (faceLandmarkerRef (hook w)), video; reflexivity.
Qed.

(** Before [initializeDetector] has run, a start with video and canvas in
    place is a no-op. *)
Lemma startDetection_guard_witness :
  startDetection (defaultOptions true) (Some theVideo) (Some a_canvas)
                 (eyes_closed 0) initialWorld = initialWorld.
Proof.
  apply (startDetection_guard (defaultOptions true) (Some theVideo)
           (Some a_canvas) (eyes_closed 0) initialWorld).
  left. reflexivity.
Defined.

(** ** Initialization *)

(** [initializeDetector] returns whatever the loads do: its promise is
    never rejected. *)
Lemma initializeDetector_returns (mp : MediaPipe) (s : Hook) :
  (initializeDetector mp s).2 = Returned.
Proof.
  unfold initializeDetector.
  destruct (initializeDetector_try mp s) as [s' []]; reflexivity.
Qed.

(** The [try] block throws exactly when a load fails. *)
Lemma initializeDetector_try_throws (mp : MediaPipe) (s : Hook) :
  (initializeDetector_try mp s).2 = Threw <-> loaded mp = None.
Proof.
  unfold initializeDetector_try, loaded.
  destruct (forVisionTasks mp) as [r|]; [|tauto].
  destruct (createFromOptions mp r); cbn; split; congruence.
Qed.

(** Past its guards, [startDetection] marks the hook as running, whatever
    the first frame holds. *)
Lemma startDetection_isRunning {num : Type} `{JsNumber num}
    (opts : UseBlinkDetectionOptions num) (landmarker : FaceLandmarker)
    (video : HTMLVideoElement) (ctx : CanvasRenderingContext2D)
    (f : VideoFrame num) (w : World num) :
  faceLandmarkerRef (hook w) = Some landmarker ->
  isRunning (hook (startDetection opts (Some video)
                     (Some (mkCanvas (Some ctx))) f w)) = true.
Proof.
  intros Hfl.
  rewrite (startDetection_past_guards opts landmarker video ctx f w Hfl).
  rewrite detectFrame_unfold. cbv zeta. cbn [hook pending nextHandle trace].
  match goal with |- context [detectFrameBody ?l ?f ?s] =>
    pose proof (detectFrameBody_status l f s) as Hs;
    destruct (detectFrameBody l f s) as [[[s1 l1] ev1] c1] end.
  cbn in Hs. destruct Hs as (Hr & _).
  destruct c1, s1; cbn in *; rewrite Hr; destruct (hook w); reflexivity.
Qed.

(** C8.  When a load fails, [initializeDetector] still returns; it leaves
    [isInitialized] false and the failure message in [error], and touches
    no other cell.  A retry whose loads succeed returns with
    [isInitialized] true, [error] cleared and the landmarker stored, after
    which [startDetection] starts detection. *)
Theorem initializeDetector_failure {num : Type} `{JsNumber num}
    (mp : MediaPipe) (s : Hook) :
  loaded mp = None ->
  let r := initializeDetector mp s in
  r.2 = Returned
  /\ isInitialized r.1 = false
  /\ error r.1 = Some init_failure_message
  /\ r.1 = set_isInitialized false (set_error (Some init_failure_message) s)
  /\ forall (retry : MediaPipe) (landmarker : FaceLandmarker),
       loaded retry = Some landmarker ->
       let r' := initializeDetector retry r.1 in
       r'.2 = Returned
       /\ isInitialized r'.1 = true
       /\ error r'.1 = None
       /\ faceLandmarkerRef r'.1 = Some landmarker
       /\ forall (opts : UseBlinkDetectionOptions num) video ctx
                 (f : VideoFrame num) ps next events,
            isRunning (hook (startDetection opts (Some video)
                               (Some (mkCanvas (Some ctx))) f
                               (mkWorld r'.1 ps next events))) = true.
Proof.
  intros Hfail r.
  assert (Er : r = (set_isInitialized false
                      (set_error (Some init_failure_message) s), Returned)).
  { unfold r, initializeDetector, initializeDetector_try.
    unfold loaded in Hfail.
    destruct (forVisionTasks mp) as [fr|]; [|destruct s; reflexivity].
    destruct (createFromOptions mp fr); [discriminate|destruct s; reflexivity]. }
  rewrite Er. cbn [fst snd].
  split; [reflexivity|]. split; [reflexivity|]. split; [reflexivity|].
  split; [reflexivity|].
  intros retry landmarker Hok.
  set (r' := initializeDetector retry _).
  assert (Er' : r' = (set_isInitialized true
                        (set_faceLandmarkerRef (Some landmarker)
                           (set_error None
                              (set_isInitialized false
                                 (set_error (Some init_failure_message) s)))),
                      Returned)).
  { unfold r', initializeDetector, initializeDetector_try.
    unfold loaded in Hok.
    destruct (forVisionTasks retry) as [fr|]; [|discriminate].
    destruct (createFromOptions retry fr) as [fl|]; [|discriminate].
    assert (fl = landmarker) as -> by congruence. reflexivity. }
  rewrite Er'. cbn [fst snd].
  split; [reflexivity|]. split; [reflexivity|]. split; [reflexivity|].
  split; [reflexivity|].
  intros opts video ctx f ps next events.
  apply (startDetection_isRunning opts landmarker). reflexivity.
Qed.

(** The model download fails: the hook reports it and stays uninitialized;
    the retry with a working engine initializes it. *)
Lemma initializeDetector_failure_witness :
  initializeDetector broken_engine initialHook
  = (mkHook false false (Some init_failure_message) None None 0 false None,
     Returned)
  /\ isInitialized
       (initializeDetector working_engine
          (initializeDetector broken_engine initialHook).1).1 = true.
Proof.
  destruct (initializeDetector_failure (num := float) broken_engine initialHook
              eq_refl) as (_ & _ & _ & _ & Hretry).
  split; [reflexivity|].
  destruct (Hretry working_engine theFaceLandmarker eq_refl) as (_ & Hi & _).
  exact Hi.
Defined.

(** ** The action dispatcher *)

Import Dispatcher.

Lemma ActionMapping_unmapped (blinkCount : Z) :
  blinkCount <> 2%Z -> blinkCount <> 3%Z ->
  blinkCount <> 5%Z -> blinkCount <> 6%Z ->
  ActionMapping !! blinkCount = None.
Proof.
  intros H2 H3 H5 H6. unfold ActionMapping.
  rewrite !lookup_insert_ne by congruence.
  apply lookup_singleton_ne. congruence.
Qed.



(** * Further properties of the hook *)

(** ** Invariants of every session *)

Section Session_invariants.
Context {num : Type} `{JsNumber num}.

Lemma fresh_handles_cancel (h : positive) (w : World num) :
  fresh_handles w -> fresh_handles (cancelAnimationFrame h w).
Proof.
  intros (Hnd & Hlt & Href). unfold fresh_handles, cancelAnimationFrame; cbn.
  split; [|split; [|exact Href]].
  - apply (NoDup_fmap_2_strong fst).
    + intros [h1 l1] [h2 l2] H1 H2 E. cbn in E. subst h2.
      apply list_elem_of_filter in H1 as [_ H1].
      apply list_elem_of_filter in H2 as [_ H2].
      f_equal.
      apply list_elem_of_lookup in H1 as [i Hi].
      apply list_elem_of_lookup in H2 as [j Hj].
      assert (i = j).
      { apply (NoDup_lookup _ i j h1 Hnd);
          rewrite list_lookup_fmap; [rewrite Hi|rewrite Hj]; reflexivity. }
      subst j. congruence.
    + apply NoDup_filter.
      apply (NoDup_fmap_1 fst). exact Hnd.
  - intros h' Hin. apply Hlt.
    apply list_elem_of_fmap in Hin as ([h2 l2] & -> & Hin).
    apply list_elem_of_filter in Hin as [_ Hin].
    apply list_elem_of_fmap. exists (h2, l2). split; [reflexivity|exact Hin].
Qed.

Lemma fresh_handles_detectFrame (l : Loop num) (f : VideoFrame num)
    (w : World num) :
  fresh_handles w -> fresh_handles (detectFrame l f w).
Proof.
  intros (Hnd & Hlt & Href). rewrite detectFrame_unfold. cbv zeta.
  pose proof (detectFrameBody_status l f (hook w)) as Hs. cbv zeta in Hs.
  destruct (detectFrameBody l f (hook w)) as [[[s l'] events] c].
  cbn in Hs. destruct Hs as (_ & _ & _ & _ & Haf).
  destruct c; unfold fresh_handles; cbn.
  - rewrite fmap_app. cbn. split; [|split].
    + apply NoDup_app. split; [exact Hnd|]. split.
      * intros h Hin Hin'. apply list_elem_of_singleton in Hin'. subst h.
        specialize (Hlt _ Hin). lia.
      * apply NoDup_singleton.
    + intros h Hin. apply elem_of_app in Hin as [Hin|Hin].
      * specialize (Hlt _ Hin). lia.
      * apply list_elem_of_singleton in Hin. subst h. lia.
    + intros h E. destruct s; cbn in E. injection E as <-. lia.
  - split; [exact Hnd|]. split; [exact Hlt|].
    intros h E. apply Href. congruence.
Qed.

Lemma fresh_handles_hook (s : Hook) (w : World num) :
  animationFrameRef s = animationFrameRef (hook w)
  \/ animationFrameRef s = None ->
  fresh_handles w ->
  fresh_handles (mkWorld s (pending w) (nextHandle w) (trace w)).
Proof.
  intros Hs (Hnd & Hlt & Href). unfold fresh_handles; cbn.
  split; [exact Hnd|]. split; [exact Hlt|].
  intros h E. destruct Hs as [Hs|Hs]; rewrite Hs in E; [auto|discriminate].
Qed.

Lemma fresh_handles_step (op : Operation num) (w : World num) :
  fresh_handles w -> fresh_handles (hookStep op w).
Proof.
  intros Hw. destruct op as [mp|opts video canvas f|h f|]; cbn.
  - apply fresh_handles_hook; [|exact Hw]. left.
    unfold initializeDetector, initializeDetector_try.
    destruct (forVisionTasks mp) as [r|]; [destruct (createFromOptions mp r)|];
      reflexivity.
  - unfold startDetection.
    destruct (faceLandmarkerRef (hook w)), video, canvas as [c|]; try exact Hw.
    destruct (getContext2d c); [|exact Hw].
    apply fresh_handles_detectFrame.
    apply fresh_handles_hook; [left; reflexivity|exact Hw].
  - unfold animationFrame.
    destruct (list_find _ _) as [[i [h' l]]|]; [|exact Hw].
    apply fresh_handles_detectFrame, fresh_handles_cancel, Hw.
  - unfold stopDetection.
    destruct (animationFrameRef (hook w)) as [h|] eqn:E.
    + apply (fresh_handles_hook _ (cancelAnimationFrame h w));
        [right; reflexivity|].
      apply fresh_handles_cancel, Hw.
    + apply fresh_handles_hook; [left; reflexivity|exact Hw].
Qed.

Lemma counter_nonneg_step (op : Operation num) (w : World num) :
  (0 <= blinkCounterRef (hook w))%Z ->
  (0 <= blinkCounterRef (hook (hookStep op w)))%Z.
Proof.
  intros Hw.
  assert (Hd : forall l f (w : World num),
             (0 <= blinkCounterRef (hook w))%Z ->
             (0 <= blinkCounterRef (hook (detectFrame l f w)))%Z).
  { intros l f w0 H0. rewrite detectFrame_unfold. cbv zeta.
    pose proof (detectFrameBody_counter l f (hook w0)) as Hc. cbv zeta in Hc.
    destruct (detectFrameBody l f (hook w0)) as [[[s l'] events] c].
    cbn in Hc. destruct c, s; cbn in *; lia. }
  destruct op as [mp|opts video canvas f|h f|]; cbn.
  - unfold initializeDetector, initializeDetector_try.
    destruct (forVisionTasks mp) as [r|]; [destruct (createFromOptions mp r)|];
      cbn; exact Hw.
  - unfold startDetection.
    destruct (faceLandmarkerRef (hook w)), video, canvas as [c|]; try exact Hw.
    destruct (getContext2d c); [|exact Hw].
    apply Hd. exact Hw.
  - unfold animationFrame.
    destruct (list_find _ _) as [[i [h' l]]|]; [|exact Hw].
    apply Hd. exact Hw.
  - unfold stopDetection. destruct (animationFrameRef (hook w)); cbn; lia.
Qed.

End Session_invariants.


(** ** What the debouncer reports *)

Section Debouncer_runs.
Context {num : Type} `{JsNumber num}.

Lemma detectBlinks_cons (opts : UseBlinkDetectionOptions num) (avgEAR : num)
    (ears : list num) (s : Hook) :
  detectBlinks opts (avgEAR :: ears) s
  = ((detectBlink opts avgEAR s).2
       :: (detectBlinks opts ears (detectBlink opts avgEAR s).1).1,
     (detectBlinks opts ears (detectBlink opts avgEAR s).1).2).
Proof.
  cbn. destruct (detectBlink opts avgEAR s) as [s' events].
  cbn. destruct (detectBlinks opts ears s'). reflexivity.
Qed.

Lemma blinks_app (a b : list Event) : blinks (a ++ b) = (blinks a + blinks b)%nat.
Proof. unfold blinks. rewrite filter_app, length_app. reflexivity. Qed.

Lemma blinks_one : blinks [Blink] = 1%nat.
Proof. reflexivity. Qed.

Lemma blinks_nil : blinks [] = 0%nat.
Proof. reflexivity. Qed.

(** One step of the accounting: a blink costs [consecutiveFrames] counted
    frames, and only a frame below the threshold adds one. *)
Lemma detectBlink_accounting (opts : UseBlinkDetectionOptions num)
    (avgEAR : num) (s : Hook) :
  (0 <= blinkCounterRef s)%Z ->
  let r := detectBlink opts avgEAR s in
  (0 <= blinkCounterRef r.1)%Z
  /\ (consecutiveFrames opts * Z.of_nat (blinks r.2) + blinkCounterRef r.1
      <= blinkCounterRef s
         + (if nltb avgEAR (earThreshold opts) then 1 else 0))%Z.
Proof.
  intros Hs. cbv zeta. destruct (nltb avgEAR (earThreshold opts)) eqn:E.
  - rewrite (detectBlink_below _ _ _ E). destruct s; cbn -[blinks] in *.
    rewrite blinks_nil. lia.
  - rewrite (detectBlink_reopened _ _ _ E).
    destruct (consecutiveFrames opts <=? blinkCounterRef s)%Z eqn:Ec;
      [apply Z.leb_le in Ec|];
      destruct (wasBlinkingRef s), (onBlink opts), s;
      cbn -[blinks] in *; rewrite ?blinks_one, ?blinks_nil; lia.
Qed.

(** After a blink the flag is set ... *)
Lemma detectBlink_sets_flag (opts : UseBlinkDetectionOptions num)
    (avgEAR : num) (s : Hook) :
  Blink ∈ (detectBlink opts avgEAR s).2 ->
  wasBlinkingRef (detectBlink opts avgEAR s).1 = true.
Proof.
  destruct (nltb avgEAR (earThreshold opts)) eqn:E.
  - rewrite (detectBlink_below _ _ _ E). cbn. intros Hin.
    apply elem_of_nil in Hin. destruct Hin.
  - rewrite (detectBlink_reopened _ _ _ E). cbn.
    destruct (consecutiveFrames opts <=? blinkCounterRef s)%Z;
      [destruct s; reflexivity|].
    cbn. intros Hin. apply elem_of_nil in Hin. destruct Hin.
Qed.

(** ... and while the flag is set nothing is reported. *)
Lemma detectBlink_flag_blocks (opts : UseBlinkDetectionOptions num)
    (avgEAR : num) (s : Hook) :
  wasBlinkingRef s = true -> (detectBlink opts avgEAR s).2 = [].
Proof.
  intros Hwb. destruct (nltb avgEAR (earThreshold opts)) eqn:E.
  - rewrite (detectBlink_below _ _ _ E). reflexivity.
  - rewrite (detectBlink_reopened _ _ _ E). cbn. rewrite Hwb.
    rewrite andb_false_r. reflexivity.
Qed.

End Debouncer_runs.

(** X2.  Every reported blink is paid for with closed frames: over any run
    of the debouncer that starts with a non-negative count,
    [consecutiveFrames] times the number of [onBlink] calls, plus the count
    left at the end, is at most the count at the start plus the number of
    frames whose averaged EAR was below the threshold. *)
Theorem blinks_need_closed_frames {num : Type} `{JsNumber num}
    (opts : UseBlinkDetectionOptions num) (ears : list num) (s : Hook) :
  (0 <= blinkCounterRef s)%Z ->
  let r := detectBlinks opts ears s in
  (consecutiveFrames opts * Z.of_nat (blinks (concat r.1))
   + blinkCounterRef r.2
   <= blinkCounterRef s + Z.of_nat (closedFrames opts ears))%Z.
Proof.
  cbv zeta. revert s.
  assert (Hgen : forall s, (0 <= blinkCounterRef s)%Z ->
            (0 <= blinkCounterRef (detectBlinks opts ears s).2)%Z
            /\ (consecutiveFrames opts
                  * Z.of_nat (blinks (concat (detectBlinks opts ears s).1))
                + blinkCounterRef (detectBlinks opts ears s).2
                <= blinkCounterRef s + Z.of_nat (closedFrames opts ears))%Z).
  { induction ears as [|avgEAR ears IH]; intros s Hs.
    - cbn. unfold blinks, closedFrames. cbn. lia.
    - rewrite detectBlinks_cons. cbn [fst snd concat].
      destruct (detectBlink_accounting opts avgEAR s Hs) as [H0 H1].
      destruct (IH _ H0) as [H2 H3]. split; [exact H2|].
      rewrite blinks_app, Nat2Z.inj_add, Z.mul_add_distr_l.
      unfold closedFrames in *. rewrite filter_cons.
      destruct (nltb avgEAR (earThreshold opts)) eqn:E.
      + rewrite decide_True by reflexivity. cbn [length].
        rewrite Nat2Z.inj_succ. lia.
      + rewrite decide_False by discriminate. lia. }
  intros s Hs. apply Hgen, Hs.
Qed.

(** With the defaults, five frames of which only one is closed cannot pay
    for a blink: 2 * blinks + count <= 0 + 1. *)
Lemma blinks_need_closed_frames_witness :
  closedFrames (defaultOptions true) [0.3; 0.15; 0.3; 0.3; 0.3]%float = 1%nat
  /\ (2 * Z.of_nat (blinks (concat (detectBlinks (defaultOptions true)
                                      [0.3; 0.15; 0.3; 0.3; 0.3]%float
                                      initialHook).1))
      + blinkCounterRef (detectBlinks (defaultOptions true)
                           [0.3; 0.15; 0.3; 0.3; 0.3]%float initialHook).2
      <= 0 + Z.of_nat (closedFrames (defaultOptions true)
                         [0.3; 0.15; 0.3; 0.3; 0.3]%float))%Z.
Proof.
  split; [vm_compute; reflexivity|].
  exact (blinks_need_closed_frames (defaultOptions true)
           [0.3; 0.15; 0.3; 0.3; 0.3]%float initialHook (Z.le_refl 0)).
Defined.

(** X3.  A closure is reported exactly when it lasted long enough.  From a
    state whose flag is clear, a run of frames below the threshold followed
    by one frame that is not emits nothing during the closure, and on the
    reopening frame calls [onBlink] once if the count has reached
    [consecutiveFrames] (and a handler is installed), and not at all
    otherwise. *)
Theorem closure_reported_iff_long_enough {num : Type} `{JsNumber num}
    (opts : UseBlinkDetectionOptions num) (closure : list num)
    (reopened : num) (s : Hook) :
  wasBlinkingRef s = false ->
  Forall (fun e => nltb e (earThreshold opts) = true) closure ->
  nltb reopened (earThreshold opts) = false ->
  (detectBlinks opts (closure ++ [reopened]) s).1
  = replicate (length closure) []
    ++ [if (consecutiveFrames opts
              <=? blinkCounterRef s + Z.of_nat (length closure))%Z
           && onBlink opts
        then [Blink] else []].
Proof.
  intros Hwb Hclosed Hopen. revert s Hwb.
  induction Hclosed as [|e closure He Hclosed IH]; intros s Hwb.
  - cbn [app]. rewrite detectBlinks_cons. cbn [fst snd detectBlinks].
    rewrite (detectBlink_reopened _ _ _ Hopen). cbn [fst snd length replicate app].
    rewrite Hwb, Z.add_0_r. cbn. rewrite andb_true_r. reflexivity.
  - cbn [app]. rewrite detectBlinks_cons. cbn [fst snd].
    rewrite (detectBlink_below _ _ _ He). cbn [fst snd].
    rewrite IH by (destruct s; exact Hwb).
    cbn [length replicate app]. f_equal. f_equal.
    replace (blinkCounterRef (set_blinkCounterRef (blinkCounterRef s + 1) s)
             + Z.of_nat (length closure))%Z
      with (blinkCounterRef s + Z.of_nat (S (length closure)))%Z
      by (destruct s; cbn; lia).
    reflexivity.
Qed.

(** Three closed frames, then an open one: reported on the fourth frame. *)
Lemma closure_reported_iff_long_enough_witness :
  (detectBlinks (defaultOptions true) [0.1; 0.15; 0.12; 0.3]%float initialHook).1
  = [[]; []; []; [Blink]].
Proof.
  apply (closure_reported_iff_long_enough (defaultOptions true)
           [0.1; 0.15; 0.12]%float 0.3%float initialHook).
  - reflexivity.
  - repeat constructor.
  - reflexivity.
Defined.

(** X4.  [onBlink] is never called on two frames in a row: the frame after
    a reported blink reports nothing, whatever it shows. *)
Theorem no_blink_on_consecutive_frames {num : Type} `{JsNumber num}
    (opts : UseBlinkDetectionOptions num) (ears : list num) (s : Hook)
    (i : nat) (first second : list Event) :
  (detectBlinks opts ears s).1 !! i = Some first ->
  (detectBlinks opts ears s).1 !! S i = Some second ->
  Blink ∈ first ->
  second = [].
Proof.
  revert s i. induction ears as [|e1 ears IH]; intros s i H1 H2 Hb.
  - cbn in H1. discriminate.
  - rewrite detectBlinks_cons in H1, H2. cbn [fst] in H1, H2.
    destruct i as [|i].
    + cbn in H1. injection H1 as <-.
      destruct ears as [|e2 ears]; [cbn in H2; discriminate|].
      rewrite detectBlinks_cons in H2. cbn in H2. injection H2 as <-.
      apply detectBlink_flag_blocks, detectBlink_sets_flag, Hb.
    + cbn in H1, H2. exact (IH _ i H1 H2 Hb).
Qed.

(** With a minimum of 0 every open frame could report; the open frame
    after the blink on the third frame still reports nothing. *)
Lemma no_blink_on_consecutive_frames_witness :
  (detectBlinks (mkOptions true 0.2%float 0) [0.15; 0.15; 0.3; 0.3]%float
                initialHook).1 !! 2%nat = Some [Blink]
  /\ (detectBlinks (mkOptions true 0.2%float 0) [0.15; 0.15; 0.3; 0.3]%float
                   initialHook).1 !! 3%nat = Some [].
Proof.
  split; [reflexivity|].
  assert (E : exists second,
             (detectBlinks (mkOptions true 0.2%float 0)
                [0.15; 0.15; 0.3; 0.3]%float initialHook).1 !! 3%nat
             = Some second) by (eexists; reflexivity).
  destruct E as [second E]. rewrite E. f_equal.
  apply (no_blink_on_consecutive_frames (mkOptions true 0.2%float 0)
           [0.15; 0.15; 0.3; 0.3]%float initialHook 2 [Blink] second).
  - reflexivity.
  - exact E.
  - left.
Defined.

(** ** Frames, stops and restarts *)

Section Frame_skips.
Context {num : Type} `{JsNumber num}.

(** A picture whose time the loop has already seen is skipped. *)
Lemma detectFrameBody_seen (l : Loop num) (f : VideoFrame num) (s : Hook) :
  nneqb (currentTime f) (lastVideoTime l) = false ->
  detectFrameBody l f s = (s, l, [], Returned).
Proof.
  intros En. unfold detectFrameBody. rewrite En.
  destruct (_ || _); reflexivity.
Qed.

(** A run of the body either skips the picture or records its time. *)
Lemma detectFrameBody_time (l : Loop num) (f : VideoFrame num) (s : Hook) :
  detectFrameBody l f s = (s, l, [], Returned)
  \/ lastVideoTime (detectFrameBody l f s).1.1.2 = currentTime f.
Proof.
  unfold detectFrameBody.
  destruct (_ || _); [left; reflexivity|].
  destruct (nneqb _ _); [right|left; reflexivity].
  destruct (faceLandmarks f) as [[|landmarks faces]|]; try reflexivity.
  destruct (calculateEAR landmarks LEFT_EYE_TOP _ _ _); [|reflexivity].
  destruct (calculateEAR landmarks RIGHT_EYE_TOP _ _ _); [|reflexivity].
  cbn zeta. destruct (detectBlink _ _ s). reflexivity.
Qed.

End Frame_skips.

(** X5.  One loop never counts the same picture twice: when the callback
    runs again while the video still shows the same time (a time that is a
    number), the second run changes no cell of the hook, emits nothing and
    returns. *)
Theorem same_picture_counted_once {num : Type} `{JsNumber num}
    (l : Loop num) (f : VideoFrame num) (s : Hook) :
  neqb (currentTime f) (currentTime f) = true ->
  let r := detectFrameBody l f s in
  detectFrameBody r.1.1.2 f r.1.1.1 = (r.1.1.1, r.1.1.2, [], Returned).
Proof.
  intros Ht. cbv zeta.
  destruct (detectFrameBody_time l f s) as [E|E].
  - rewrite E. cbn [fst snd]. exact E.
  - apply detectFrameBody_seen. rewrite E. unfold nneqb. rewrite Ht. reflexivity.
Qed.

(** An eye closed at time 0.08 is counted once, however often the callback
    runs before the video advances. *)
Lemma same_picture_counted_once_witness :
  blinkCounterRef (detectFrameBody (mkLoop (defaultOptions true) 0.04%float)
                     (eyes_closed 0.08)
                     (hook running_world)).1.1.1 = 1%Z
  /\ detectFrameBody (mkLoop (defaultOptions true) 0.08%float) (eyes_closed 0.08)
       (detectFrameBody (mkLoop (defaultOptions true) 0.04%float)
          (eyes_closed 0.08) (hook running_world)).1.1.1
     = ((detectFrameBody (mkLoop (defaultOptions true) 0.04%float)
           (eyes_closed 0.08) (hook running_world)).1.1.1,
        mkLoop (defaultOptions true) 0.08%float, [], Returned).
Proof.
  split; [vm_compute; reflexivity|].
  exact (same_picture_counted_once (mkLoop (defaultOptions true) 0.04%float)
           (eyes_closed 0.08) (hook running_world) eq_refl).
Defined.

(** X6.  [stopDetection] is idempotent: a second stop changes nothing. *)
Theorem stopDetection_idempotent {num : Type} `{JsNumber num} (w : World num) :
  stopDetection (stopDetection w) = stopDetection w.
Proof.
  unfold stopDetection.
  destruct (animationFrameRef (hook w)) as [h|] eqn:E; cbn; [reflexivity|].
  rewrite E. reflexivity.
Qed.

(** X7.  A face that lacks a landmark the hook reads ends the loop for
    good.  When the single pending callback runs on a new picture whose
    first face has no landmark 386, an exception leaves the callback before
    it requests the next frame: no callback is pending afterwards, while the
    cells of the hook, [isRunning] among them, stay as they were. *)
Theorem short_face_ends_loop {num : Type} `{JsNumber num}
    (h : positive) (l : Loop num) (f : VideoFrame num) (w : World num)
    (landmarker : FaceLandmarker) :
  pending w = [(h, l)] ->
  faceLandmarkerRef (hook w) = Some landmarker ->
  videoWidth f <> 0%N ->
  nneqb (currentTime f) (lastVideoTime l) = true ->
  short_face f ->
  animationFrame h f w
  = mkWorld (hook w) [] (nextHandle w) (trace w ++ [UncaughtTypeError]).
Proof.
  intros Hp Hfl Hwd Hn (landmarks & faces & Hf & Hlen).
  assert (Hcancel : cancelAnimationFrame h w
                    = mkWorld (hook w) [] (nextHandle w) (trace w)).
  { unfold cancelAnimationFrame. rewrite Hp, filter_cons. cbn.
    rewrite decide_False by tauto. reflexivity. }
  unfold animationFrame. rewrite Hp. cbn [list_find].
  rewrite decide_True by reflexivity. cbn [fmap option_fmap option_map].
  rewrite Hcancel, detectFrame_unfold. cbv zeta. cbn [hook pending nextHandle trace].
  assert (Hbody : detectFrameBody l f (hook w)
                  = (hook w, mkLoop (loopOptions l) (currentTime f),
                     [UncaughtTypeError], Threw)).
  { unfold detectFrameBody. rewrite Hfl, Hn, Hf.
    apply N.eqb_neq in Hwd. rewrite Hwd. cbn.
    destruct (calculateEAR landmarks LEFT_EYE_TOP _ _ _); [|reflexivity].
    destruct (calculateEAR landmarks RIGHT_EYE_TOP _ _ _) eqn:ER; [|reflexivity].
    exfalso. assert (HN : calculateEAR landmarks RIGHT_EYE_TOP RIGHT_EYE_BOTTOM
                            RIGHT_EYE_LEFT RIGHT_EYE_RIGHT = None).
    { apply calculateEAR_throws_iff. left. exact Hlen. }
    congruence. }
  rewrite Hbody. reflexivity.
Qed.

(** The running page receives a face of 100 landmarks: the loop is gone,
    and [isRunning] is still true. *)
Lemma short_face_ends_loop_witness :
  pending (animationFrame 1 (cut_face 0.04) running_world) = []
  /\ isRunning (hook (animationFrame 1 (cut_face 0.04) running_world)) = true.
Proof.
  rewrite (short_face_ends_loop 1 (mkLoop (defaultOptions true) 0%float)
             (cut_face 0.04) running_world theFaceLandmarker).
  - split; reflexivity.
  - reflexivity.
  - reflexivity.
  - discriminate.
  - reflexivity.
  - exists (take 100 (face 0.03)), []. split; [reflexivity|].
    vm_compute. lia.
Defined.

(** X8.  A failed initialization does not take away a landmarker loaded
    before.  When the hook holds a landmarker and [initializeDetector] is
    run again with loads that fail, the hook reports the failure
    ([isInitialized] false, [error] set) but keeps the old landmarker, and
    [startDetection] still passes its guard and starts detection. *)
Theorem failed_reinitialize_keeps_landmarker {num : Type} `{JsNumber num}
    (mp : MediaPipe) (s : Hook) (landmarker : FaceLandmarker) :
  faceLandmarkerRef s = Some landmarker ->
  loaded mp = None ->
  let s' := (initializeDetector mp s).1 in
  isInitialized s' = false
  /\ error s' = Some init_failure_message
  /\ faceLandmarkerRef s' = Some landmarker
  /\ forall (opts : UseBlinkDetectionOptions num) video ctx
            (f : VideoFrame num) ps next events,
       isRunning (hook (startDetection opts (Some video)
                          (Some (mkCanvas (Some ctx))) f
                          (mkWorld s' ps next events))) = true.
Proof.
  intros Hfl Hfail s'.
  assert (Es : s' = set_isInitialized false
                      (set_error (Some init_failure_message) s)).
  { unfold s', initializeDetector, initializeDetector_try.
    unfold loaded in Hfail.
    destruct (forVisionTasks mp) as [fr|]; [|destruct s; reflexivity].
    destruct (createFromOptions mp fr); [discriminate|destruct s; reflexivity]. }
  rewrite Es. split; [reflexivity|]. split; [reflexivity|].
  split; [destruct s; exact Hfl|].
  intros opts video ctx f ps next events.
  apply (startDetection_isRunning opts landmarker).
  destruct s; exact Hfl.
Qed.

Lemma failed_reinitialize_keeps_landmarker_witness :
  isInitialized (initializeDetector broken_engine (hook initialized_world)).1
  = false
  /\ faceLandmarkerRef
       (initializeDetector broken_engine (hook initialized_world)).1
     = Some theFaceLandmarker.
Proof.
  destruct (failed_reinitialize_keeps_landmarker (num := float) broken_engine
              (hook initialized_world) theFaceLandmarker eq_refl eq_refl)
    as (Hi & _ & Hfl & _).
  split; [exact Hi|exact Hfl].
Defined.

Section One_loop.
Context {num : Type} `{JsNumber num}.

Lemma single_loop_step (op : Operation num) (w : World num) :
  single_loop w ->
  match op with OpStart _ _ _ _ => pending w = [] | _ => True end ->
  single_loop (hookStep op w).
Proof.
  intros Hw Hidle. destruct op as [mp|opts video canvas f|h f|]; cbn.
  - intros h l Hin. cbn in Hin. specialize (Hw h l Hin).
    unfold initializeDetector, initializeDetector_try.
    destruct (forVisionTasks mp) as [r|]; [destruct (createFromOptions mp r)|];
      cbn; exact Hw.
  - apply startDetection_single_loop, Hidle.
  - apply animationFrame_single_loop, Hw.
  - intros h l Hin. rewrite (stopDetection_pending w Hw) in Hin.
    apply elem_of_nil in Hin. destruct Hin.
Qed.

Lemma single_loop_length (w : World num) :
  single_loop w -> fresh_handles w -> (length (pending w) <= 1)%nat.
Proof.
  intros Hw (Hnd & _).
  destruct (pending w) as [|[h1 l1] [|[h2 l2] ps]] eqn:E; cbn; try lia.
  exfalso.
  assert (E1 : animationFrameRef (hook w) = Some h1).
  { apply (Hw h1 l1). rewrite E. left. }
  assert (E2 : animationFrameRef (hook w) = Some h2).
  { apply (Hw h2 l2). rewrite E. right. left. }
  assert (h1 = h2) by congruence. subst h2.
  cbn in Hnd. apply NoDup_cons in Hnd as [Hnot _].
  apply Hnot. left.
Qed.

End One_loop.



(** X10.  A loop keeps the options it was started with: after the browser
    has run a callback, every pending callback carries the options of a
    callback that was pending before. *)
Theorem loop_keeps_its_options {num : Type} `{JsNumber num}
    (h : positive) (f : VideoFrame num) (w : World num)
    (h' : positive) (l' : Loop num) :
  (h', l') ∈ pending (animationFrame h f w) ->
  exists h0 l0, (h0, l0) ∈ pending w /\ loopOptions l' = loopOptions l0.
Proof.
  unfold animationFrame.
  destruct (list_find _ _) as [[i [h1 l1]]|] eqn:E; [|eauto].
  apply list_find_Some in E as (Hi & _ & _).
  apply list_elem_of_lookup_2 in Hi.
  rewrite detectFrame_unfold. cbv zeta.
  pose proof (detectFrameBody_options l1 f (hook (cancelAnimationFrame h w))) as Ho.
  destruct (detectFrameBody l1 f (hook (cancelAnimationFrame h w)))
    as [[[s l2] events] c]. cbn in Ho.
  assert (Hold : forall p, p ∈ pending (cancelAnimationFrame h w) -> p ∈ pending w).
  { intros p Hp. unfold cancelAnimationFrame in Hp. cbn in Hp.
    apply list_elem_of_filter in Hp as [_ Hp]. exact Hp. }
  destruct c; cbn; intros Hin.
  - apply elem_of_app in Hin as [Hin|Hin].
    + exists h', l'. split; [apply Hold, Hin|reflexivity].
    + apply list_elem_of_singleton in Hin. injection Hin as -> ->.
      exists h1, l1. split; [exact Hi|exact Ho].
  - exists h', l'. split; [apply Hold, Hin|reflexivity].
Qed.

(** The loop started with the defaults still carries them a frame later. *)
Lemma loop_keeps_its_options_witness :
  exists h0 l0, (h0, l0) ∈ pending running_world
                /\ loopOptions (mkLoop (defaultOptions true) 0.04%float)
                   = loopOptions l0.
Proof.
  apply (loop_keeps_its_options 1 (eyes_closed 0.04) running_world 2
           (mkLoop (defaultOptions true) 0.04%float)).
  vm_compute. left.
Defined.

(** * The voice-message path *)

(** ** [trim] *)

Lemma trimStart_kept (c : N) (s : JsString) :
  isWhiteSpace c = false -> trimStart (c :: s) = c :: s.
Proof. intros Hc. cbn. rewrite Hc. reflexivity. Qed.

Lemma trimStart_head (s : JsString) :
  trimStart s = [] \/ exists c rest, trimStart s = c :: rest /\ isWhiteSpace c = false.
Proof.
  induction s as [|c s IH]; [left; reflexivity|].
  cbn. destruct (isWhiteSpace c) eqn:Hc; [exact IH|].
  right. exists c, s. split; [reflexivity|exact Hc].
Qed.

Lemma trimEnd_cons (c : N) (s : JsString) :
  trimEnd (c :: s)
  = match trimEnd s with
    | [] => if isWhiteSpace c then [] else [c]
    | kept => c :: kept
    end.
Proof. reflexivity. Qed.

Lemma trimEnd_idempotent (s : JsString) : trimEnd (trimEnd s) = trimEnd s.
Proof.
  induction s as [|c s IH]; [reflexivity|].
  rewrite trimEnd_cons.
  destruct (trimEnd s) as [|k kept] eqn:E.
  - destruct (isWhiteSpace c) eqn:Hc; [reflexivity|].
    cbn. rewrite Hc. reflexivity.
  - rewrite trimEnd_cons, IH. reflexivity.
Qed.

(** [trimEnd] keeps a first code unit that is not white space. *)
Lemma trimEnd_head (c : N) (s : JsString) :
  isWhiteSpace c = false -> exists kept, trimEnd (c :: s) = c :: kept.
Proof.
  intros Hc. rewrite trimEnd_cons.
  destruct (trimEnd s) as [|k kept]; [rewrite Hc|]; eauto.
Qed.

Lemma trimStart_trimEnd (s : JsString) :
  trimStart (trimEnd s) = trimEnd (trimStart s).
Proof.
  induction s as [|c s IH]; [reflexivity|].
  destruct (isWhiteSpace c) eqn:Hc.
  - cbn [trimStart]. rewrite Hc, <- IH, trimEnd_cons.
    destruct (trimEnd s) as [|k kept]; [rewrite Hc; reflexivity|].
    cbn [trimStart]. rewrite Hc. reflexivity.
  - rewrite (trimStart_kept c s Hc).
    destruct (trimEnd_head c s Hc) as [kept ->].
    apply trimStart_kept, Hc.
Qed.

Lemma trimStart_idempotent (s : JsString) : trimStart (trimStart s) = trimStart s.
Proof.
  destruct (trimStart_head s) as [-> | (c & rest & -> & Hc)]; [reflexivity|].
  apply trimStart_kept, Hc.
Qed.

Lemma trim_idempotent (s : JsString) : trim (trim s) = trim s.
Proof.
  unfold trim.
  rewrite (trimStart_trimEnd (trimStart s)), trimStart_idempotent.
  apply trimEnd_idempotent.
Qed.

Lemma truthy_Some (s : JsString) : truthy (Some s) = true <-> s <> [].
Proof. destruct s; cbn; split; congruence. Qed.

Lemma length_zero_decide (s : JsString) :
  bool_decide (length s = 0%nat) = negb (truthy (Some s)).
Proof. destruct s; reflexivity. Qed.

(** ** The handler *)

Section Voice_message_facts.
Import VoiceMessage.

(** A request with an address and a message the handler accepts. *)
Lemma handler_accepts (resend : Email -> SendOutcome) (req : Request)
    (r : VoiceMessageRequest) (e m : JsString) :
  method req <> js "OPTIONS" ->
  json req = inr r ->
  to_email r = Some e -> e <> [] -> includesAt e = true ->
  message r = Some m -> trim m <> [] ->
  handler resend req
  = let email := mkEmail (js "BlinkControl Voice Message <onboarding@resend.dev>")
                         [e] true m (toString (time r)) in
    match resend email with
    | SendReturned data => (mkResponse 200 jsonHeaders (SuccessBody data), [email])
    | SendThrew msg => (mkResponse 500 jsonHeaders (ErrorBody msg), [email])
    end.
Proof.
  intros Hm Hj He Hne Hat Hmsg Htrim. unfold handler.
  rewrite bool_decide_false by exact Hm. rewrite Hj, He, Hmsg. cbn [toString].
  rewrite Hat. destruct e as [|c e]; [congruence|]. cbn [truthy negb orb].
  assert (Hm' : m <> []) by (intros ->; apply Htrim; reflexivity).
  destruct m as [|c' m]; [congruence|]. cbn [truthy negb orb].
  rewrite bool_decide_false; [reflexivity|].
  destruct (trim (c' :: m)); [congruence|discriminate].
Qed.

(** X11.  The edge function hands a mail to the mail service only for a
    request that is not a preflight, whose body parses, whose [to_email]
    contains "@" and whose [message] is not blank; it then hands over
    exactly one mail, addressed to [to_email] alone, with the message as it
    arrived. *)
Theorem handler_sends_only_valid (resend : Email -> SendOutcome)
    (req : Request) (email : Email) :
  email ∈ (handler resend req).2 ->
  method req <> js "OPTIONS"
  /\ exists r e m,
       json req = inr r
       /\ to_email r = Some e /\ 64%N ∈ e
       /\ message r = Some m /\ trim m <> []
       /\ to email = [e] /\ html_message email = m
       /\ (handler resend req).2 = [email].
Proof.
  unfold handler.
  destruct (bool_decide (method req = js "OPTIONS")) eqn:Em;
    [cbn; intros Hin; apply elem_of_nil in Hin; destruct Hin|].
  apply bool_decide_eq_false in Em.
  destruct (json req) as [msg|r] eqn:Ej;
    [cbn; intros Hin; apply elem_of_nil in Hin; destruct Hin|].
  destruct (to_email r) as [e|] eqn:Ee;
    [|cbn; intros Hin; apply elem_of_nil in Hin; destruct Hin].
  cbn [toString].
  destruct (negb (truthy (Some e)) || negb (includesAt e)) eqn:Ev;
    [cbn; intros Hin; apply elem_of_nil in Hin; destruct Hin|].
  apply orb_false_elim in Ev as [_ Hat]. apply negb_false_iff in Hat.
  destruct (message r) as [m|] eqn:Emsg;
    [|cbn; intros Hin; apply elem_of_nil in Hin; destruct Hin].
  cbn [toString].
  destruct (negb (truthy (Some m)) || bool_decide (length (trim m) = 0%nat))
    eqn:Evm; [cbn; intros Hin; apply elem_of_nil in Hin; destruct Hin|].
  apply orb_false_elim in Evm as [_ Hlen]. apply bool_decide_eq_false in Hlen.
  cbv zeta.
  assert (Hall : forall e0, e0 ∈ [mkEmail (js "BlinkControl Voice Message <onboarding@resend.dev>")
                                   [e] true m (toString (time r))] ->
                 e0 = mkEmail (js "BlinkControl Voice Message <onboarding@resend.dev>")
                        [e] true m (toString (time r))).
  { intros e0 Hin. apply list_elem_of_singleton in Hin. exact Hin. }
  intros Hin. split; [exact Em|]. exists r, e, m.
  assert (Heq : email = mkEmail (js "BlinkControl Voice Message <onboarding@resend.dev>")
                          [e] true m (toString (time r))).
  { destruct (resend _); cbn in Hin; apply Hall, Hin. }
  subst email.
  split; [reflexivity|]. split; [exact Ee|].
  split; [apply bool_decide_eq_true in Hat; exact Hat|].
  split; [exact Emsg|].
  split; [intros Ht; apply Hlen; rewrite Ht; reflexivity|].
  split; [reflexivity|]. split; [reflexivity|].
  destruct (resend _); reflexivity.
Qed.

(** A POST for "a@b.c" with the message " hi " is mailed, untrimmed, to
    that address alone. *)
Lemma handler_sends_only_valid_witness :
  exists r e m,
    to_email r = Some e /\ 64%N ∈ e /\ message r = Some m /\ trim m <> []
    /\ e = js "a@b.c" /\ m = js " hi ".
Proof.
  destruct (handler_sends_only_valid
              (fun _ => SendReturned (mkEmailResponse 1))
              (mkRequest (js "POST")
                 (inr (mkVoiceMessageRequest (Some (js "a@b.c"))
                         (Some (js " hi ")) (Some (js "now")))))
              (mkEmail (js "BlinkControl Voice Message <onboarding@resend.dev>")
                       [js "a@b.c"] true (js " hi ") (js "now")))
    as (_ & r & e & m & Hj & He & Hat & Hm & Ht & Hto & Hmsg & _).
  - vm_compute. left.
  - exists r, e, m. cbn in Hto, Hmsg.
    injection Hto as <-. subst m.
    repeat split; assumption.
Defined.

(** X12.  The edge function answers 200, 400 or 500, always with the CORS
    headers.  A 400 means nothing was handed to the mail service.  A 200 to
    anything but a preflight means exactly one mail was handed over and the
    service returned, and the body carries what it returned. *)
Theorem handler_status (resend : Email -> SendOutcome) (req : Request) :
  let response := (handler resend req).1 in
  let sent := (handler resend req).2 in
  (status response = 200%N \/ status response = 400%N \/ status response = 500%N)
  /\ corsHeaders ⊆ headers response
  /\ (status response = 400%N -> sent = [])
  /\ (status response = 200%N -> method req <> js "OPTIONS" ->
      exists email data,
        sent = [email] /\ resend email = SendReturned data
        /\ body response = SuccessBody data).
Proof.
  cbv zeta.
  assert (Hcors : corsHeaders ⊆ jsonHeaders).
  { intros p Hp. right. exact Hp. }
  unfold handler.
  destruct (bool_decide (method req = js "OPTIONS")) eqn:Em.
  - apply bool_decide_eq_true in Em. cbn.
    split; [tauto|]. split; [reflexivity|]. split; [discriminate|]. tauto.
  - destruct (json req) as [msg|r].
    { cbn. split; [tauto|]. split; [exact Hcors|]. split; discriminate. }
    destruct (_ || _).
    { cbn. split; [tauto|]. split; [exact Hcors|]. split; [reflexivity|discriminate]. }
    destruct (_ || _).
    { cbn. split; [tauto|]. split; [exact Hcors|]. split; [reflexivity|discriminate]. }
    cbv zeta. destruct (resend _) as [data|msg] eqn:Es; cbn.
    + split; [tauto|]. split; [exact Hcors|]. split; [discriminate|].
      intros _ _. eexists _, data. split; [reflexivity|]. split; [exact Es|reflexivity].
    + split; [tauto|]. split; [exact Hcors|]. split; discriminate.
Qed.

(** ** The modal *)

(** X13.  The modal calls the edge function exactly when the transcript is
    not blank and an address is known.  Otherwise it changes no state and
    only shows a toast.  When it does call, it sends one request, with the
    trimmed transcript as the message, and [isSending] is false again at
    the end, whatever the answer. *)
Theorem handleSendMessage_guard (invoke : VoiceMessageRequest -> Invoked)
    (transcript : JsString) (userEmail : option JsString) (now : JsString)
    (m : Modal) :
  let r := handleSendMessage invoke transcript userEmail now m in
  (invoked r.2 = [] <-> trim transcript = [] \/ truthy userEmail = false)
  /\ (invoked r.2 = [] -> r.1 = m /\ dismissScheduled r.2 = false)
  /\ (invoked r.2 <> [] ->
      isSending r.1 = false
      /\ invoked r.2
         = [mkVoiceMessageRequest userEmail (Some (trim transcript)) (Some now)]
      /\ (messageSent r.1 = true ->
          messageSent m = true \/ toasts r.2 = [VoiceMessageSent])).
Proof.
  cbv zeta. unfold handleSendMessage.
  destruct (trim transcript) as [|c t] eqn:Et; cbn [truthy negb orb].
  - cbn. split; [tauto|]. split; [tauto|]. congruence.
  - destruct (truthy userEmail) eqn:Eu; cbn [negb].
    + cbv zeta. destruct (invoke _); cbn.
      * split; [split; [discriminate|intros [|]; discriminate]|].
        split; [discriminate|]. intros _. repeat split. tauto.
      * split; [split; [discriminate|intros [|]; discriminate]|].
        split; [discriminate|]. intros _. repeat split. tauto.
    + cbn. split; [tauto|]. split; [tauto|]. congruence.
Qed.

(** ** Modal and edge function together *)

(** X14.  What the modal sends, the edge function never rejects as blank.
    For a transcript that is not blank and a known address, the answer to
    the modal's request is never 400 "No message provided"; it is 400
    "Invalid email address", with nothing mailed and the failure toast
    shown, exactly when the address has no "@"; and with an "@" one mail
    with the trimmed transcript goes to that address, and the success toast
    is shown exactly when the mail service returned. *)
Theorem modal_request_accepted (resend : Email -> SendOutcome)
    (transcript e now : JsString) (m : Modal) :
  trim transcript <> [] ->
  e <> [] ->
  let request := mkVoiceMessageRequest (Some e) (Some (trim transcript)) (Some now) in
  let answer := handler resend (mkRequest (js "POST") (inr request)) in
  let r := handleSendMessage (invokeHandler resend) transcript (Some e) now m in
  invoked r.2 = [request]
  /\ ~ (status answer.1 = 400%N
        /\ body answer.1 = ErrorBody (js "No message provided"))
  /\ (includesAt e = false ->
      answer = (mkResponse 400 jsonHeaders
                  (ErrorBody (js "Invalid email address")), [])
      /\ exists description, toasts r.2 = [FailedToSend description])
  /\ (includesAt e = true ->
      exists email,
        answer.2 = [email] /\ to email = [e]
        /\ html_message email = trim transcript
        /\ (toasts r.2 = [VoiceMessageSent]
            <-> exists data, resend email = SendReturned data)).
Proof.
  intros Htrim He request answer r.
  assert (Hpost : method (mkRequest (js "POST") (inr request)) <> js "OPTIONS").
  { intros E. vm_compute in E. discriminate E. }
  assert (Hguard : r = match invokeHandler resend request with
                       | InvokeOk =>
                           (mkModal false true,
                            mkEffects [VoiceMessageSent] [request] true)
                       | InvokeError msg =>
                           (mkModal false (messageSent m),
                            mkEffects [FailedToSend (orDefault msg)] [request] false)
                       end).
  { unfold r, handleSendMessage.
    destruct (trim transcript) as [|c t] eqn:Et; [congruence|].
    destruct e as [|c' e']; [congruence|]. reflexivity. }
  destruct (includesAt e) eqn:Hat.
  - pose proof (handler_accepts resend _ request e (trim transcript)
                  Hpost eq_refl eq_refl He Hat eq_refl) as Hacc.
    rewrite trim_idempotent in Hacc. specialize (Hacc Htrim).
    cbv zeta in Hacc. fold answer in Hacc.
    set (email := mkEmail (js "BlinkControl Voice Message <onboarding@resend.dev>")
                          [e] true (trim transcript) (toString (time request)))
      in Hacc.
    assert (Hinv : invokeHandler resend request
                   = match resend email with
                     | SendReturned _ => InvokeOk
                     | SendThrew _ =>
                         InvokeError (js "Edge Function returned a non-2xx status code")
                     end).
    { unfold invokeHandler. cbv zeta. fold answer. rewrite Hacc.
      destruct (resend email); reflexivity. }
    rewrite Hinv in Hguard.
    split; [rewrite Hguard; destruct (resend email); reflexivity|].
    split.
    { rewrite Hacc. destruct (resend email); cbn; intros [E _]; discriminate E. }
    split; [discriminate|]. intros _. exists email.
    split; [rewrite Hacc; destruct (resend email); reflexivity|].
    split; [reflexivity|]. split; [reflexivity|].
    rewrite Hguard. destruct (resend email) as [data|msg]; cbn.
    + split; [eauto|reflexivity].
    + split; [discriminate|intros [data E]; discriminate E].
  - assert (Hans : answer = (mkResponse 400 jsonHeaders
                               (ErrorBody (js "Invalid email address")), [])).
    { unfold answer, handler. rewrite bool_decide_false by exact Hpost.
      cbn [json to_email request toString]. rewrite Hat.
      rewrite orb_true_r. reflexivity. }
    assert (Hinv : invokeHandler resend request
                   = InvokeError (js "Edge Function returned a non-2xx status code")).
    { unfold invokeHandler. cbv zeta. fold answer. rewrite Hans. reflexivity. }
    rewrite Hinv in Hguard.
    split; [rewrite Hguard; reflexivity|].
    split.
    { rewrite Hans. cbn. intros [_ E]. vm_compute in E. discriminate E. }
    split; [|discriminate]. intros _. split; [exact Hans|].
    rewrite Hguard. eexists. reflexivity.
Qed.

(** The transcript " turn on the light " for "me@home.org": one mail with
    "turn on the light", and the success toast. *)
Lemma modal_request_accepted_witness :
  toasts (handleSendMessage
            (invokeHandler (fun _ => SendReturned (mkEmailResponse 7)))
            (js " turn on the light ") (Some (js "me@home.org")) (js "now")
            (mkModal false false)).2 = [VoiceMessageSent]
  /\ (handler (fun _ => SendReturned (mkEmailResponse 7))
        (mkRequest (js "POST")
           (inr (mkVoiceMessageRequest (Some (js "me@home.org"))
                   (Some (trim (js " turn on the light ")))
                   (Some (js "now")))))).2
     = [mkEmail (js "BlinkControl Voice Message <onboarding@resend.dev>")
                [js "me@home.org"] true (js "turn on the light") (js "now")].
Proof.
  destruct (modal_request_accepted
              (fun _ => SendReturned (mkEmailResponse 7))
              (js " turn on the light ") (js "me@home.org") (js "now")
              (mkModal false false))
    as (_ & _ & _ & Hok).
  - vm_compute. discriminate.
  - vm_compute. discriminate.
  - destruct (Hok eq_refl) as (email & Hsent & _ & _ & Htoast).
    split; [apply Htoast; eexists; reflexivity|].
    vm_compute. reflexivity.
Defined.

End Voice_message_facts.

(** * The speech-to-text hook *)

Section Speech_facts.
Import SpeechToText.

(** X15.  Recognized text is only ever appended: whatever a recognition
    instance reports (start, results, errors, end), in whatever order, the
    transcript before is a prefix of the transcript after. *)
Theorem transcript_only_grows (events : list RecognitionEvent) (s : State) :
  transcript s `prefix_of` transcript (foldl (fun s e => handle e s) s events).
Proof.
  revert s. induction events as [|e events IH]; intros s; [reflexivity|].
  cbn [foldl]. etransitivity; [|apply IH].
  destruct e as [|event|code|]; cbn; try reflexivity.
  unfold onresult. destruct (gather _ _ _) as [[finalT interimT]|];
    [|reflexivity].
  cbn. apply prefix_app_r. reflexivity.
Qed.

(** Interim results are appended like final ones: the interim "hel" stays
    in front of the final "hello". *)
Example interim_text_stays :
  transcript (foldl (fun s e => handle e s) initialState
                [Start;
                 Result (mkEvent 0 [mkResult false [js "hel"]]);
                 Result (mkEvent 0 [mkResult true [js "hello"]])])
  = js "helhello".
Proof. vm_compute. reflexivity. Qed.

(** X16.  [startListening] leaves an error message exactly when it started
    no recognition: [error] is null afterwards if and only if the browser
    has the API and neither the constructor nor [start()] threw, and only
    then is a recognition added to the running ones.  It never changes
    [isListening], and without the API it keeps the transcript. *)
Theorem startListening_reports_failure (api : Api) (p : Page) :
  (error (state (startListening api p)) = None <-> api = Works)
  /\ (running (startListening api p) = running p ++ [nextInstance p]
      <-> api = Works)
  /\ isListening (state (startListening api p)) = isListening (state p)
  /\ (api = NoApi ->
      transcript (state (startListening api p)) = transcript (state p)).
Proof.
  assert (Hne : running p <> running p ++ [nextInstance p]).
  { intros E. apply (f_equal length) in E. rewrite length_app in E.
    cbn in E. lia. }
  destruct api; cbn; repeat split; try congruence; try discriminate;
    intros E; exfalso; apply Hne; exact E.
Qed.

Lemma filter_keeps_others (instance : positive) (l : list positive) :
  (forall i, i ∈ l -> i <> instance) ->
  filter (fun i => i <> instance) l = l.
Proof.
  induction l as [|i l IH]; intros Hall; [reflexivity|].
  rewrite filter_cons, decide_True by (apply Hall; left).
  rewrite IH; [reflexivity|]. intros j Hj. apply Hall. right. exact Hj.
Qed.

(** X17.  [stopListening] stops only the recognition started last: after
    two successful [startListening] calls and one [stopListening], the
    recognition of the first call is still running. *)
Theorem stopListening_stops_latest_only (p : Page) :
  (forall i, i ∈ running p -> (i < nextInstance p)%positive) ->
  running (stopListening (startListening Works (startListening Works p)))
  = running p ++ [nextInstance p]
  /\ recognitionRef
       (state (stopListening (startListening Works (startListening Works p))))
     = None.
Proof.
  intros Hfresh. cbn. split; [|reflexivity].
  rewrite <- app_assoc. cbn. rewrite filter_app.
  rewrite filter_keeps_others
    by (intros i Hi; specialize (Hfresh i Hi); lia).
  rewrite filter_cons, decide_True by lia.
  rewrite filter_cons, decide_False by tauto. reflexivity.
Qed.

(** On a fresh page: two starts, one stop, and recognition 1 runs on. *)
Lemma stopListening_stops_latest_only_witness :
  running (stopListening
             (startListening Works
                (startListening Works (mkPage initialState [] 1))))
  = [1%positive].
Proof.
  destruct (stopListening_stops_latest_only (mkPage initialState [] 1))
    as [Hrun _].
  - intros i Hi. apply elem_of_nil in Hi. destruct Hi.
  - exact Hrun.
Defined.

End Speech_facts.
